(** * Local Web Reader: a shallow embedding of [web_reader_local.py]

    The development follows the source file top to bottom: Python strings
    and the string methods the code calls, the parsed HTML tree and the
    tree operations the code calls on it, the [Website] class, and the
    [LocalWebReader] class.  The HTTP client, the HTML parser and the
    chat client are collaborators of the program; they are the fields of
    the class [Collaborators], which the program takes as a parameter.

    Conventions.
    - A Python [str] is a sequence of Unicode code points, [list N].
      [len] is [length], [+] is [++].  Literals of the source that are
      plain ASCII are written [py "..."].
    - A Python exception is an [exn]; [str(e)] is its message.  Only
      exceptions deriving from [Exception] are modelled, those are the
      ones [except Exception] catches.
    - Calls of [logger] and [print] only write to the console: they are
      left out.  Every call of a collaborator is recorded in a history of
      [event]s, and a collaborator may answer differently depending on
      the history so far. *)

From Stdlib Require Import ZArith NArith Ascii String.
From stdpp Require Import base option list gmap.

Local Open Scope N_scope.

(** ** Python strings *)

Abbreviation str := (list N).

(** The code points of an ASCII literal. *)
Definition py (s : string) : str :=
  (λ c, N.of_nat (nat_of_ascii c)) <$> list_ascii_of_string s.

Definition nl : N := 10.

(** [str.isspace] for one character: the white space of [str.strip()]. *)
Definition isspace (c : N) : bool :=
  ((9 <=? c) && (c <=? 13)) || ((28 <=? c) && (c <=? 32))
  || (c =? 133) || (c =? 160) || (c =? 5760)
  || ((8192 <=? c) && (c <=? 8202))
  || (c =? 8232) || (c =? 8233) || (c =? 8239) || (c =? 8287) || (c =? 12288).

Fixpoint lstrip (s : str) : str :=
  match s with
  | c :: s' => if isspace c then lstrip s' else s
  | [] => []
  end.

Definition rstrip (s : str) : str := reverse (lstrip (reverse s)).

(** [s.strip()] *)
Definition strip (s : str) : str := rstrip (lstrip s).

(** [s.split(sep)] for a separator of one character. *)
Fixpoint split (sep : N) (s : str) : list str :=
  match s with
  | [] => [[]]
  | c :: s' =>
      if c =? sep then [] :: split sep s'
      else match split sep s' with
           | l :: ls => (c :: l) :: ls
           | [] => [[c]]
           end
  end.

(** [sep.join(ls)] *)
Fixpoint join (sep : str) (ls : list str) : str :=
  match ls with
  | [] => []
  | [l] => l
  | l :: ls' => l ++ sep ++ join sep ls'
  end.

(** ** [Website._clean_text] *)

(** The loop body: [line = line.strip()], then
    [if len(line) > 10: cleaned_lines.append(line)]. *)
Definition clean_step (cleaned_lines : list str) (line : str) : list str :=
  let line := strip line in
  if (10 <? length line)%nat then cleaned_lines ++ [line] else cleaned_lines.

Definition _clean_text (text : str) : str :=
  let lines := split nl text in
  let cleaned_lines := foldl clean_step [] lines in
  join [nl] cleaned_lines.

(** The cleaning step in the words of the specification: split at
    newlines, trim, keep the lines of trimmed length above 10, rejoin. *)
Definition clean_text_spec (text : str) : str :=
  join [nl] (filter (λ l, 10 < length l)%nat (strip <$> split nl text)).

(** ** The parsed document

    [BeautifulSoup(response.content, 'html.parser')] yields a tree.  A
    [NavigableString] is a piece of text; an [OtherString] is a string
    that [get_text] leaves out (a comment, a doctype and the like); a
    [Tag] has a lower-case name and its contents in document order.  The
    document itself is the tag of name [[document]]. *)

#[local] Set Warnings "-register-all".

Inductive node : Type :=
| NavigableString (s : str)
| OtherString (s : str)
| Tag (name : str) (contents : list node).

(** [tag.descendants]: every node below [n], in document order. *)
Fixpoint descendants (n : node) : list node :=
  match n with
  | Tag _ contents => flat_map (λ c, c :: descendants c) contents
  | _ => []
  end.

Definition is_named (names : list str) (n : node) : bool :=
  match n with
  | Tag name _ => bool_decide (name ∈ names)
  | _ => false
  end.

(** [tag(names)], that is [tag.find_all(names)]. *)
Definition find_all (names : list str) (n : node) : list node :=
  List.filter (is_named names) (descendants n).

(** [tag.find(name)]; [soup.title] is [soup.find("title")] and
    [soup.body] is [soup.find("body")]. *)
Definition find (name : str) (n : node) : option node :=
  head (find_all [name] n).

(** The tree after [for x in tag(names): x.decompose()]: every
    descendant of one of these names is taken out with all it holds. *)
Fixpoint decompose_all (names : list str) (n : node) : node :=
  match n with
  | Tag name contents =>
      Tag name
        (flat_map (λ c, if is_named names c then []
                        else [decompose_all names c]) contents)
  | _ => n
  end.

(** [tag.string]: the single string a tag holds, directly or through a
    chain of only children; [None] otherwise. *)
Fixpoint string_of (n : node) : option str :=
  match n with
  | Tag _ [child] =>
      match child with
      | NavigableString s | OtherString s => Some s
      | Tag _ _ => string_of child
      end
  | _ => None
  end.

(** The strings [tag.get_text] collects. *)
Definition text_of (n : node) : option str :=
  match n with
  | NavigableString s => Some s
  | _ => None
  end.

(** [tag._all_strings(strip=True)]: each text below the tag, trimmed,
    the empty ones skipped. *)
Definition _all_strings (n : node) : list str :=
  List.filter (λ s, negb (bool_decide (s = [])))
    (strip <$> omap text_of (descendants n)).

(** [tag.get_text(separator=sep, strip=True)] *)
Definition get_text (sep : str) (n : node) : str :=
  join sep (_all_strings n).

(** ** Exceptions and effects *)

(** A Python exception; [str(e)] is [msg e]. *)
Record exn : Type := Exception { msg : str }.

(** What [None.strip()] raises. *)
Definition AttributeError_strip : exn :=
  Exception (py "'NoneType' object has no attribute 'strip'").

(** A computation over a state [S] that returns an [A] or raises.  The
    state a computation has reached when it raises is kept: Python does
    not undo assignments. *)
Definition Py (S A : Type) : Type := S → (exn + A) * S.

#[global] Instance Py_ret {S} : MRet (Py S) := λ A a s, (inr a, s).

#[global] Instance Py_bind {S} : MBind (Py S) := λ A B f m s,
  match m s with
  | (inr a, s') => f a s'
  | (inl e, s') => (inl e, s')
  end.

(** [try: m  except Exception as e: handler e] *)
Definition try_except {S A} (m : Py S A) (handler : exn → Py S A) : Py S A :=
  λ s, match m s with
       | (inr a, s') => (inr a, s')
       | (inl e, s') => handler e s'
       end.

Definition gets {S A} (f : S → A) : Py S A := λ s, (inr (f s), s).
Definition modify {S} (f : S → S) : Py S unit := λ s, (inr tt, f s).

(** ** Collaborators *)

(** What [requests.get] returns: the fields the program reads. *)
Record Response : Type := {
  r_status_code : Z;
  r_content : list Byte.byte;
}.

(** One entry of the list given to [ollama.chat]. *)
Record message : Type := { role : str; content : str }.

(** What [ollama.chat] returns, read as [response['message']['content']]. *)
Record ChatResponse : Type := { message_content : str }.

(** The calls the program makes to the outside. *)
Inductive event : Type :=
| Get (url : str) (timeout : Z)
| Chat (model : str) (messages : list message).

#[global] Instance message_eq_dec : EqDecision message.
Proof. solve_decision. Defined.
#[global] Instance event_eq_dec : EqDecision event.
Proof. solve_decision. Defined.

(** ** The [Website] class *)

Record Website : Type := {
  url : str;
  title : str;
  text : str;
  raw_content : str;
  status_code : option Z;
}.

(** The state a method of [Website] runs in: the object and the history
    of outside calls. *)
Record Frame : Type := { self : Website; history : list event }.

Definition set_title (v : str) : Py Frame unit :=
  modify (λ f, {| self := {| url := url (self f); title := v;
                             text := text (self f);
                             raw_content := raw_content (self f);
                             status_code := status_code (self f) |};
                  history := history f |}).

Definition set_text (v : str) : Py Frame unit :=
  modify (λ f, {| self := {| url := url (self f); title := title (self f);
                             text := v;
                             raw_content := raw_content (self f);
                             status_code := status_code (self f) |};
                  history := history f |}).

Definition set_raw_content (v : str) : Py Frame unit :=
  modify (λ f, {| self := {| url := url (self f); title := title (self f);
                             text := text (self f);
                             raw_content := v;
                             status_code := status_code (self f) |};
                  history := history f |}).

Definition set_status_code (v : option Z) : Py Frame unit :=
  modify (λ f, {| self := {| url := url (self f); title := title (self f);
                             text := text (self f);
                             raw_content := raw_content (self f);
                             status_code := v |};
                  history := history f |}).

(** The value of a pure call of a collaborator: returned or raised. *)
Definition outcome {S A} (r : exn + A) : Py S A := λ s, (r, s).

(** The tag names taken out of the body. *)
Definition irrelevant : list str :=
  [py "script"; py "style"; py "img"; py "input"; py "nav"; py "header";
   py "footer"].

(** An object of the class [LocalWebReader] holds the model name and
    the system prompt. *)
Record LocalWebReader : Type := { model : str; system_prompt : str }.

Definition DEFAULT_MODEL : str := py "llama3.2".

(** [LocalWebReader(model)]: the two assignments of [__init__].  The
    check of the model that follows them only prints and logs, and
    swallows every exception. *)
Definition LocalWebReader__init__ (m : str) : LocalWebReader :=
  {| model := m;
     system_prompt :=
       py "You are an assistant that analyzes the contents of a website "
       ++ [nl]
       ++ py "and provides a short summary, ignoring text that might be navigation related. "
       ++ [nl] ++ py "Respond in markdown." |}.

(** The first two characters of the failure message as the source file
    spells them, U+00E2 and U+0152; a cross mark is U+274C. *)
Definition failure_mark : str := [226; 338].
Definition cross_mark : str := [10060].

(** The outside of the program: the HTTP client, the HTML parser and the
    chat client. *)
Class Collaborators : Type := {
  (** [requests.get(url, timeout=timeout)]: a response, or the transport
      error it raises.  The first argument is the history so far. *)
  requests_get : list event → str → Z → exn + Response;
  (** [response.raise_for_status()]: the error it raises, if any. *)
  raise_for_status : Response → option exn;
  (** [BeautifulSoup(content, 'html.parser')] *)
  BeautifulSoup : list Byte.byte → exn + node;
  (** [str(soup)] *)
  soup_str : node → str;
  (** [ollama.chat(model=model, messages=messages)] *)
  ollama_chat : list event → str → list message → exn + ChatResponse;
}.

Section Program.

Context `{W : Collaborators}.

Definition call_get (u : str) (timeout : Z) : Py Frame Response :=
  λ f, (requests_get (history f) u timeout,
        {| self := self f; history := history f ++ [Get u timeout] |}).

Definition call_chat (m : str) (messages : list message)
  : Py (list event) ChatResponse :=
  λ h, (ollama_chat h m messages, h ++ [Chat m messages]).

(** [soup.title.string.strip() if soup.title else "No title found"] *)
Definition extract_title (soup : node) : exn + str :=
  match find (py "title") soup with
  | Some t =>
      match string_of t with
      | Some s => inr (strip s)
      | None => inl AttributeError_strip
      end
  | None => inr (py "No title found")
  end.

Definition _scrape_website (timeout : Z) : Py Frame unit :=
  u ← gets (λ f, url (self f));
  response ← call_get u timeout;
  _ ← outcome (match raise_for_status response with
               | Some e => inl e
               | None => inr tt
               end);
  _ ← set_status_code (Some (r_status_code response));
  soup ← outcome (BeautifulSoup (r_content response));
  _ ← set_raw_content (soup_str soup);
  t ← outcome (extract_title soup);
  _ ← set_title t;
  match find (py "body") soup with
  | Some body =>
      let body := decompose_all irrelevant body in
      _ ← set_text (get_text [nl] body);
      t ← gets (λ f, text (self f));
      set_text (_clean_text t)
  | None => set_text (get_text [nl] soup)
  end.

Definition _handle_scraping_error (error_message : str) : Py Frame unit :=
  _ ← set_title (py "Error loading website");
  _ ← set_text (py "Failed to load website content: " ++ error_message);
  set_status_code None.

(** The assignments that open [__init__]. *)
Definition blank (u : str) : Website :=
  {| url := u; title := []; text := []; raw_content := [];
     status_code := None |}.

(** [Website(url, timeout)] *)
Definition Website__init__ (u : str) (timeout : Z)
  : Py (list event) Website :=
  λ h,
    match try_except (_scrape_website timeout)
            (λ e, _handle_scraping_error (msg e))
            {| self := blank u; history := h |} with
    | (inr _, f) => (inr (self f), history f)
    | (inl e, f) => (inl e, history f)
    end.

(** ** The [LocalWebReader] class *)

Definition set_system_prompt (r : LocalWebReader) (prompt : str)
  : LocalWebReader :=
  {| model := model r; system_prompt := prompt |}.

Definition user_prompt_for (website : Website) : str :=
  let user_prompt :=
    py "You are looking at a website titled '" ++ title website
    ++ py "'" ++ [nl] in
  let user_prompt :=
    user_prompt ++ py "The contents of this website is as follows; " in
  let user_prompt :=
    user_prompt
    ++ py "please provide a short summary of this website in markdown. " in
  let user_prompt :=
    user_prompt
    ++ py "If it includes news or announcements, then summarize these too."
    ++ [nl; nl] in
  user_prompt ++ text website.

Definition messages_for (r : LocalWebReader) (website : Website)
  : list message :=
  [ {| role := py "system"; content := system_prompt r |};
    {| role := py "user"; content := user_prompt_for website |} ].

Definition failure_message (u : str) : str :=
  failure_mark ++ py " Failed to access website: " ++ u.

Definition summarize (r : LocalWebReader) (u : str) : Py (list event) str :=
  try_except
    (website ← Website__init__ u 10;
     if bool_decide (status_code website ≠ Some 200%Z)
     then mret (failure_message u)
     else
       let messages := messages_for r website in
       response ← call_chat (model r) messages;
       let summary := message_content response in
       mret summary)
    (λ e,
      let error_msg := py "Error generating summary: " ++ msg e in
      mret error_msg).

Fixpoint batch_loop (r : LocalWebReader) (urls : list str)
    (results : gmap str str) : Py (list event) (gmap str str) :=
  match urls with
  | [] => mret results
  | u :: urls' =>
      s ← summarize r u;
      batch_loop r urls' (<[u := s]> results)
  end.

Definition batch_summarize (r : LocalWebReader) (urls : list str)
  : Py (list event) (gmap str str) :=
  batch_loop r urls ∅.

End Program.

(** ** Test doubles

    Collaborators that answer the same whatever the history: the HTTP
    client answers [get u], [raise_for_status] raises on the statuses 400
    to 599, the parser yields [doc], the chat client answers
    [answer messages]. *)
Module Mock.

Definition HTTPError : exn := Exception (py "HTTPError").

Definition world (get : str → exn + Response) (doc : node)
    (answer : list message → exn + ChatResponse) : Collaborators :=
  {| requests_get := λ _ u _, get u;
     raise_for_status := λ r,
       if ((400 <=? r_status_code r) && (r_status_code r <? 600))%Z
       then Some HTTPError else None;
     BeautifulSoup := λ _, inr doc;
     soup_str := λ _, [];
     ollama_chat := λ _ _ messages, answer messages |}.

Definition ok (code : Z) : str → exn + Response :=
  λ _, inr {| r_status_code := code; r_content := [] |}.

Definition refused : str → exn + Response :=
  λ _, inl (Exception (py "Connection refused")).

Definition fixed (s : str) : list message → exn + ChatResponse :=
  λ _, inr {| message_content := s |}.

Definition failing : list message → exn + ChatResponse :=
  λ _, inl (Exception (py "model not found")).

(** The page of the specification's test: a title [T], a [nav], a
    short paragraph and a long one. *)
Definition page : node :=
  Tag (py "[document]")
    [ Tag (py "title") [NavigableString (py "T")];
      Tag (py "body")
        [ Tag (py "nav") [NavigableString (py "Home")];
          Tag (py "p") [NavigableString (py "Short")];
          Tag (py "p")
            [NavigableString
               (py "This is a sufficiently long paragraph of content.")] ] ].

(** The same contents without a [body] element around them. *)
Definition bare : node :=
  Tag (py "[document]")
    [ Tag (py "nav") [NavigableString (py "Home")];
      Tag (py "p") [NavigableString (py "Short")] ].

(** A page whose own title reads like the error title. *)
Definition misnamed : node :=
  Tag (py "[document]")
    [ Tag (py "title") [NavigableString (py "Error loading website")];
      Tag (py "body") [] ].

(** A document whose title element is empty: it has no string. *)
Definition untitled : node :=
  Tag (py "[document]") [ Tag (py "title") []; Tag (py "body") [] ].

Definition reader : LocalWebReader := LocalWebReader__init__ DEFAULT_MODEL.

(** The site answers 200 with [untitled], the model answers. *)
Definition up_untitled : Collaborators :=
  world (ok 200) untitled (fixed (py "A page.")).

(** The site answers 200 with [bare], the model answers. *)
Definition up_bare : Collaborators :=
  world (ok 200) bare (fixed (py "A page.")).

(** The site answers 200 with [misnamed], the model answers. *)
Definition up_misnamed : Collaborators :=
  world (ok 200) misnamed (fixed (py "A page.")).

(** The site answers 200 with [page], the model answers. *)
Definition up : Collaborators := world (ok 200) page (fixed (py "A page.")).

(** The connection is refused. *)
Definition down : Collaborators := world refused page (fixed (py "A page.")).

(** The site answers 200, the model fails. *)
Definition no_model : Collaborators := world (ok 200) page failing.

Definition site : str := py "http://site".

Definition long_paragraph : str :=
  py "This is a sufficiently long paragraph of content.".

(** What the scrape of [page] leaves. *)
Definition scraped : Website :=
  {| url := site; title := py "T"; text := long_paragraph;
     raw_content := []; status_code := Some 200%Z |}.

Definition refusal : exn := Exception (py "Connection refused").

End Mock.

(** ** Notions the statements use *)

(** The page the error handler leaves: [raw] is what [raw_content] held
    when the error was raised. *)
Definition error_page (u raw error_message : str) : Website :=
  {| url := u;
     title := py "Error loading website";
     text := py "Failed to load website content: " ++ error_message;
     raw_content := raw;
     status_code := None |}.

(** The text the scrape stores for a parsed document. *)
Definition scraped_text (soup : node) : str :=
  match find (py "body") soup with
  | Some body => _clean_text (get_text [nl] (decompose_all irrelevant body))
  | None => get_text [nl] soup
  end.

Section Outcomes.

Context `{W : Collaborators}.

(** The four places where [_scrape_website] can raise, with the
    exception and the [raw_content] stored by then. *)
Inductive scrape_raises (h : list event) (u : str) (timeout : Z)
  : exn → str → Prop :=
| raises_get e :
    requests_get h u timeout = inl e →
    scrape_raises h u timeout e []
| raises_status response e :
    requests_get h u timeout = inr response →
    raise_for_status response = Some e →
    scrape_raises h u timeout e []
| raises_parse response e :
    requests_get h u timeout = inr response →
    raise_for_status response = None →
    BeautifulSoup (r_content response) = inl e →
    scrape_raises h u timeout e []
| raises_title response soup e :
    requests_get h u timeout = inr response →
    raise_for_status response = None →
    BeautifulSoup (r_content response) = inr soup →
    extract_title soup = inl e →
    scrape_raises h u timeout e (soup_str soup).

(** The scrape runs to its end. *)
Inductive scrape_completes (h : list event) (u : str) (timeout : Z)
  : Response → node → str → Prop :=
| completes response soup t :
    requests_get h u timeout = inr response →
    raise_for_status response = None →
    BeautifulSoup (r_content response) = inr soup →
    extract_title soup = inr t →
    scrape_completes h u timeout response soup t.

End Outcomes.

(** The URL of a GET. *)
Definition requested (ev : event) : option str :=
  match ev with
  | Get u _ => Some u
  | Chat _ _ => None
  end.

(** Collaborators whose answers do not depend on the calls made so
    far. *)
Definition deterministic `{W : Collaborators} : Prop :=
  (∀ h h' u timeout, requests_get h u timeout = requests_get h' u timeout)
  ∧ (∀ h h' m messages, ollama_chat h m messages = ollama_chat h' m messages).

(** ** The console: the check of the model, [display_summary], [main]

    These methods print.  What reaches the user is kept in a screen: the
    lines printed and the documents displayed, in their order. *)

Inductive output : Type :=
| Printed (line : str)
| Displayed (markdown : str).

(** The state of a session: the outside calls made and the screen. *)
Record Session : Type := { calls : list event; screen : list output }.

(** [print(line)] *)
Definition print (line : str) : Py Session unit :=
  modify (λ σ, {| calls := calls σ; screen := screen σ ++ [Printed line] |}).

(** A method of the reader run inside a session: it sees and extends
    the calls, and leaves the screen alone. *)
Definition in_session {A} (m : Py (list event) A) : Py Session A :=
  λ σ, let '(r, h) := m (calls σ) in (r, {| calls := h; screen := screen σ |}).

(** [d[key]] on a dictionary: the value, or a [KeyError] whose message
    is the key between quotes. *)
Definition getitem {V} (d : gmap str V) (key : str) : exn + V :=
  match d !! key with
  | Some v => inr v
  | None => inl (Exception (py "'" ++ key ++ py "'"))
  end.

(** [[model['name'] for model in models]]: the names in order; the first
    entry without the key raises. *)
Fixpoint names_of (models : list (gmap str str)) : exn + list str :=
  match models with
  | [] => inr []
  | model :: models' =>
      match getitem model (py "name") with
      | inl e => inl e
      | inr name =>
          match names_of models' with
          | inl e => inl e
          | inr names => inr (name :: names)
          end
      end
  end.

(** The marks of the printed lines as the source file spells them. *)
Definition warning_mark : str := [226; 353; 160; 239; 184].
Definition lens_mark : str := [240; 376; 8221].
Definition robot_mark : str := [240; 376; 164; 8211].
Definition news_mark : str := [240; 376; 8220; 176].

(** The notebook side of the program: the list of the installed models
    and the display of a document. *)
Class Notebook : Type := {
  (** [ollama.list()]: a dictionary whose key [models] holds one
      dictionary per model, or the error it raises.  The values of the
      entries are strings; the key [models] and the key [name] of an
      entry may be missing.  A listing with a name that is not a string
      is not covered: on it the join of the second line raises after
      the first line is printed.  The call is not an [event]. *)
  ollama_list : exn + gmap str (list (gmap str str));
  (** [display(Markdown(summary))]: the error it raises, if any. *)
  display : str → option exn;
}.

Section Console.

Context `{W : Collaborators} `{NB : Notebook}.

Definition _check_ollama_availability (r : LocalWebReader)
  : Py Session unit :=
  try_except
    (models ← outcome ollama_list;
     entries ← outcome (getitem models (py "models"));
     available_models ← outcome (names_of entries);
     if bool_decide (model r ∉ available_models)
     then
       _ ← print (warning_mark ++ py "  Model '" ++ model r
                  ++ py "' not found locally.");
       _ ← print (py "Available models: "
                  ++ join (py ", ") available_models);
       print (py "To install the model, run: ollama pull " ++ model r)
     else mret tt)
    (λ e,
      _ ← print (failure_mark
                 ++ py " Ollama is not running or not accessible.");
      _ ← print (py "Please ensure Ollama is installed and running.");
      print (py "Visit: https://ollama.ai for installation instructions")).

(** [LocalWebReader(model)] with the check that ends [__init__]. *)
Definition LocalWebReader__new__ (m : str) : Py Session LocalWebReader :=
  let r := LocalWebReader__init__ m in
  _ ← _check_ollama_availability r;
  mret r.

(** [display(Markdown(summary))] *)
Definition call_display (summary : str) : Py Session unit :=
  λ σ, match display summary with
       | Some e => (inl e, σ)
       | None => (inr tt, {| calls := calls σ;
                             screen := screen σ ++ [Displayed summary] |})
       end.

Definition display_summary (r : LocalWebReader) (u : str)
  : Py Session unit :=
  _ ← print (lens_mark ++ py " Analyzing: " ++ u);
  _ ← print (replicate 50 45);
  summary ← in_session (summarize r u);
  try_except (call_display summary) (λ _, print summary).

Definition example_url : str :=
  py "https://www.cnn.com/2025/08/30/politics/zohran-mamdani-police-nypd-defund".

Definition main : Py Session unit :=
  _ ← print (robot_mark
             ++ py " Local Web Reader - Cost-Effective AI Web Analysis");
  _ ← print (replicate 55 61);
  _ ← print (py "Model: " ++ DEFAULT_MODEL);
  _ ← print (py "Cost per request: $0 (after local setup)");
  _ ← print (py "Data privacy: 100% local processing");
  _ ← print [];
  reader ← LocalWebReader__new__ DEFAULT_MODEL;
  _ ← print (news_mark ++ py " Example: News Article Analysis");
  display_summary reader example_url.

End Console.

(** ** The preview of [example_usage.py]

    [summary[:200] + "..." if len(summary) > 200 else summary], the text
    [demonstrate_batch_processing] prints for each result. *)
Definition preview (summary : str) : str :=
  if (200 <? length summary)%nat then take 200 summary ++ py "..."
  else summary.

(** More test doubles. *)
Module Cases.

(** The site answers 204 with the page of the test. *)
Definition no_content : Collaborators :=
  Mock.world (Mock.ok 204) Mock.page (Mock.fixed (py "A page.")).

(** What the scrape of the page leaves then. *)
Definition scraped_204 : Website :=
  {| url := Mock.site; title := py "T"; text := Mock.long_paragraph;
     raw_content := []; status_code := Some 204%Z |}.

(** A listing as [ollama.list()] gives it, one entry per name. *)
Definition listing (names : list str) : gmap str (list (gmap str str)) :=
  {[ py "models" := (λ name, {[ py "name" := name ]}) <$> names ]}.

(** The model of the reader is installed, and documents display. *)
Definition installed : Notebook :=
  {| ollama_list := inr (listing [py "mistral"; py "llama3.2"]);
     display := λ _, None |}.

(** Another model is installed, and there is no display. *)
Definition other_model : Notebook :=
  {| ollama_list := inr (listing [py "mistral"; py "phi3"]);
     display := λ _, Some (Exception (py "no display")) |}.

(** The entries of the listing spell their key [model], not [name]. *)
Definition renamed_key : Notebook :=
  {| ollama_list :=
       inr {[ py "models" := [ {[ py "model" := py "llama3.2" ]} ] ]};
     display := λ _, None |}.

Definition fresh : Session := {| calls := []; screen := [] |}.

End Cases.

(** ** Properties *)

Lemma foldl_clean_step acc lines :
  foldl clean_step acc lines
  = acc ++ filter (λ l, 10 < length l)%nat (strip <$> lines).
Proof.
  revert acc. induction lines as [|line lines IH]; intros acc; simpl.
  - by rewrite app_nil_r.
  - rewrite IH. unfold clean_step.
    rewrite filter_cons.
    destruct (Nat.ltb_spec 10 (length (strip line))) as [Hlt|Hge].
    + rewrite decide_True by done. by rewrite <- app_assoc.
    + rewrite decide_False by lia. done.
Qed.

Lemma _clean_text_spec text : _clean_text text = clean_text_spec text.
Proof. unfold _clean_text, clean_text_spec. by rewrite foldl_clean_step. Qed.

(** Induction on a tree, with the hypothesis for every child. *)
Lemma node_ind' (P : node → Prop)
  (Hs : ∀ s, P (NavigableString s))
  (Ho : ∀ s, P (OtherString s))
  (Ht : ∀ name contents, Forall P contents → P (Tag name contents)) :
  ∀ n, P n.
Proof.
  fix IH 1. intros [s|s|name contents]; [apply Hs | apply Ho |].
  apply Ht. induction contents as [|c cs IHcs]; constructor.
  - apply IH.
  - exact IHcs.
Qed.

Arguments py : simpl never.
Arguments _clean_text : simpl never.
Arguments get_text : simpl never.
Arguments decompose_all : simpl never.
Arguments find : simpl never.
Arguments strip : simpl never.

Section Monad.

Context {S A B : Type}.

Lemma bind_inr (m : Py S A) (k : A → Py S B) s a s' :
  m s = (inr a, s') → (m ≫= k) s = k a s'.
Proof. intros Hm. unfold mbind, Py_bind. by rewrite Hm. Qed.

Lemma bind_inl (m : Py S A) (k : A → Py S B) s e s' :
  m s = (inl e, s') → (m ≫= k) s = (inl e, s').
Proof. intros Hm. unfold mbind, Py_bind. by rewrite Hm. Qed.

End Monad.

Section Scrape.

Context `{W : Collaborators}.

Lemma scrape_cases h u timeout :
  (∃ e raw, scrape_raises h u timeout e raw)
  ∨ (∃ response soup t, scrape_completes h u timeout response soup t).
Proof.
  destruct (requests_get h u timeout) as [e|response] eqn:Hget.
  { left. exists e, []. by constructor. }
  destruct (raise_for_status response) as [e|] eqn:Hst.
  { left. exists e, []. by econstructor 2. }
  destruct (BeautifulSoup (r_content response)) as [e|soup] eqn:Hbs.
  { left. exists e, []. by econstructor 3. }
  destruct (extract_title soup) as [e|t] eqn:Ht.
  { left. exists e, (soup_str soup). by econstructor 4. }
  right. exists response, soup, t. by constructor.
Qed.

Lemma scrape_website_completes f timeout response soup t :
  scrape_completes (history f) (url (self f)) timeout response soup t →
  _scrape_website timeout f
  = (inr tt,
     {| self := {| url := url (self f); title := t;
                   text := scraped_text soup;
                   raw_content := soup_str soup;
                   status_code := Some (r_status_code response) |};
        history := history f ++ [Get (url (self f)) timeout] |}).
Proof.
  intros [resp sp t' Hget Hst Hbs Ht].
  unfold _scrape_website, scraped_text, mbind, Py_bind, gets, call_get,
    outcome, set_status_code, set_raw_content, set_title, set_text, modify.
  simpl. rewrite Hget, Hst. simpl. rewrite Hbs, Ht.
  by destruct (find (py "body") sp).
Qed.

Ltac run_scrape :=
  unfold Website__init__, try_except, _scrape_website,
    _handle_scraping_error, mbind, Py_bind, gets, call_get, outcome,
    set_status_code, set_raw_content, set_title, set_text, modify;
  simpl.

(** A scrape that raises leaves the error page; the constructor
    returns it. *)
Lemma init_raises h u timeout e raw :
  scrape_raises h u timeout e raw →
  Website__init__ u timeout h
  = (inr (error_page u raw (msg e)), h ++ [Get u timeout]).
Proof.
  intros [e' Hget|resp e' Hget Hst|resp e' Hget Hst Hbs
         |resp soup e' Hget Hst Hbs Ht]; run_scrape.
  - by rewrite Hget.
  - by rewrite Hget, Hst.
  - rewrite Hget, Hst. simpl. by rewrite Hbs.
  - rewrite Hget, Hst. simpl. by rewrite Hbs, Ht.
Qed.

(** A scrape that completes leaves the scraped page; the constructor
    returns it. *)
Lemma init_completes h u timeout response soup t :
  scrape_completes h u timeout response soup t →
  Website__init__ u timeout h
  = (inr {| url := u; title := t; text := scraped_text soup;
            raw_content := soup_str soup;
            status_code := Some (r_status_code response) |},
     h ++ [Get u timeout]).
Proof.
  intros Hc. unfold Website__init__, try_except.
  by rewrite (scrape_website_completes {| self := blank u; history := h |}
                timeout response soup t Hc).
Qed.

(** The scrape itself, started by the constructor, returns exactly in
    the second case. *)
Lemma scrape_result_raises h u timeout e raw :
  scrape_raises h u timeout e raw →
  (_scrape_website timeout {| self := blank u; history := h |}).1 = inl e.
Proof.
  intros [e' Hget|resp e' Hget Hst|resp e' Hget Hst Hbs
         |resp soup e' Hget Hst Hbs Ht]; run_scrape.
  - by rewrite Hget.
  - by rewrite Hget, Hst.
  - rewrite Hget, Hst. simpl. by rewrite Hbs.
  - rewrite Hget, Hst. simpl. by rewrite Hbs, Ht.
Qed.

Lemma scrape_result_completes h u timeout response soup t :
  scrape_completes h u timeout response soup t →
  (_scrape_website timeout {| self := blank u; history := h |}).1 = inr tt.
Proof.
  intros Hc.
  by rewrite (scrape_website_completes {| self := blank u; history := h |}
                timeout response soup t Hc).
Qed.

End Scrape.

Section Summarize.

Context `{W : Collaborators}.

(** The constructor always returns a page, after one GET. *)
Lemma init_returns h u timeout :
  ∃ page, Website__init__ u timeout h = (inr page, h ++ [Get u timeout]).
Proof.
  destruct (scrape_cases h u timeout)
    as [(e & raw & Hr)|(response & soup & t & Hc)].
  - eexists. by apply init_raises.
  - eexists. by eapply init_completes.
Qed.

(** A page whose status is not 200: the failure message, and the chat
    client is not called. *)
Lemma summarize_not_200 r u h page h' :
  Website__init__ u 10 h = (inr page, h') →
  status_code page ≠ Some 200%Z →
  summarize r u h = (inr (failure_message u), h').
Proof.
  intros Hinit Hst. unfold summarize, try_except.
  rewrite (bind_inr _ _ _ _ _ Hinit).
  by rewrite bool_decide_true.
Qed.

(** A page of status 200: one call of the chat client, whose answer or
    error message is returned. *)
Lemma summarize_200 r u h page h' :
  Website__init__ u 10 h = (inr page, h') →
  status_code page = Some 200%Z →
  summarize r u h
  = (inr match ollama_chat h' (model r) (messages_for r page) with
         | inr response => message_content response
         | inl e => py "Error generating summary: " ++ msg e
         end,
     h' ++ [Chat (model r) (messages_for r page)]).
Proof.
  intros Hinit Hst. unfold summarize, try_except.
  rewrite (bind_inr _ _ _ _ _ Hinit).
  rewrite bool_decide_false by (intros Hne; by apply Hne).
  unfold mbind, Py_bind, call_chat, mret, Py_ret.
  by destruct (ollama_chat _ _ _).
Qed.

Lemma summarize_returns r u h :
  ∃ s h', summarize r u h = (inr s, h').
Proof.
  destruct (init_returns h u 10) as [page Hinit].
  destruct (decide (status_code page = Some 200%Z)) as [Hst|Hst].
  - eexists _, _. by apply (summarize_200 r u h page).
  - eexists _, _. by apply (summarize_not_200 r u h page).
Qed.

End Summarize.

(** ** Error handling *)

(** C1, as stated, fails: when the HTTP client refuses the connection,
    the exception is raised during the fetch, and [summarize] does not
    return [Error generating summary: ] followed by its message. *)
Lemma summarize_fetch_error_unreported :
  scrape_raises (W := Mock.down) [] Mock.site 10 Mock.refusal []
  ∧ (summarize (W := Mock.down) Mock.reader Mock.site []).1
    ≠ inr (py "Error generating summary: " ++ msg Mock.refusal).
Proof.
  split.
  - by apply (raises_get (W := Mock.down)).
  - intros Heq. vm_compute in Heq. discriminate Heq.
Qed.

(** C1, amended: [summarize] always returns a string and never raises.
    When the scrape raises, the [Website] constructor has caught the
    exception, and the string is the failure message for the URL, after
    the one GET.  When the page has status 200 and the chat client
    raises, the string is [Error generating summary: ] followed by the
    message of the exception. *)
Theorem summarize_total `{W : Collaborators} r u h :
  ∃ s h', summarize r u h = (inr s, h')
    ∧ (∀ e raw, scrape_raises h u 10 e raw →
         s = failure_message u ∧ h' = h ++ [Get u 10])
    ∧ (∀ page e,
         Website__init__ u 10 h = (inr page, h ++ [Get u 10]) →
         status_code page = Some 200%Z →
         ollama_chat (h ++ [Get u 10]) (model r) (messages_for r page) = inl e →
         s = py "Error generating summary: " ++ msg e).
Proof.
  destruct (summarize_returns r u h) as (s & h' & Hs).
  exists s, h'. split; [done|]. split.
  - intros e raw Hr.
    pose proof (init_raises _ _ _ _ _ Hr) as Hinit.
    rewrite (summarize_not_200 r u h _ _ Hinit) in Hs by done.
    by inversion Hs.
  - intros page e Hinit Hst Hchat.
    rewrite (summarize_200 r u h _ _ Hinit Hst), Hchat in Hs.
    by inversion Hs.
Qed.

Lemma summarize_total_witness :
  ∃ s, (summarize (W := Mock.no_model) Mock.reader Mock.site []).1 = inr s
       ∧ s = py "Error generating summary: model not found".
Proof.
  destruct (summarize_total (W := Mock.no_model) Mock.reader Mock.site [])
    as (s & h' & Hs & _ & Hmodel).
  exists s. split; [by rewrite Hs|].
  apply (Hmodel Mock.scraped (Exception (py "model not found")));
    vm_compute; reflexivity.
Defined.

(** C2: when the GET raises a transport error, or [raise_for_status]
    raises for the status of the response, the [Website] constructor
    returns a page: its title is [Error loading website], its text is
    [Failed to load website content: ] followed by the message of the
    error, and its [status_code] is [None]. *)
Theorem website_fetch_failure `{W : Collaborators} h u timeout e :
  requests_get h u timeout = inl e
  ∨ (∃ response, requests_get h u timeout = inr response
                 ∧ raise_for_status response = Some e) →
  ∃ page, Website__init__ u timeout h = (inr page, h ++ [Get u timeout])
    ∧ title page = py "Error loading website"
    ∧ text page = py "Failed to load website content: " ++ msg e
    ∧ status_code page = None.
Proof.
  intros Hfail.
  assert (scrape_raises h u timeout e []) as Hr.
  { destruct Hfail as [Hget|(response & Hget & Hst)].
    - by apply raises_get.
    - by apply (raises_status _ _ _ response). }
  exists (error_page u [] (msg e)). split; [by apply init_raises|done].
Qed.

Lemma website_fetch_failure_witness :
  ∃ page,
    Website__init__ (W := Mock.down) Mock.site 10 []
    = (inr page, [Get Mock.site 10])
    ∧ title page = py "Error loading website"
    ∧ text page = py "Failed to load website content: Connection refused"
    ∧ status_code page = None.
Proof.
  apply (website_fetch_failure (W := Mock.down) [] Mock.site 10 Mock.refusal).
  left. reflexivity.
Defined.

(** C3 on a refused connection: the page has no status, the chat client
    is not called, and the string returned is the URL after the prefix
    of the source file, whose first two characters are U+00E2 and U+0152
    where the claim has the cross mark U+274C. *)
Theorem summarize_failure_prefix :
  summarize (W := Mock.down) Mock.reader Mock.site []
  = (inr ([226; 338] ++ py " Failed to access website: " ++ Mock.site),
     [Get Mock.site 10])
  ∧ (summarize (W := Mock.down) Mock.reader Mock.site []).1
    ≠ inr (cross_mark ++ py " Failed to access website: " ++ Mock.site).
Proof.
  split; [reflexivity|].
  intros Heq. vm_compute in Heq. discriminate Heq.
Qed.

(** ** Text extraction *)

Lemma decompose_all_tag names name contents :
  decompose_all names (Tag name contents)
  = Tag name (flat_map (λ c, if is_named names c then []
                             else [decompose_all names c]) contents).
Proof. reflexivity. Qed.

Lemma is_named_decompose_all names n :
  is_named names (decompose_all names n) = is_named names n.
Proof. by destruct n. Qed.

Lemma find_all_tag names name contents :
  find_all names (Tag name contents)
  = flat_map (λ c, (if is_named names c then [c] else []) ++ find_all names c)
      contents.
Proof.
  unfold find_all. simpl.
  induction contents as [|c cs IH]; [done|].
  simpl. rewrite List.filter_app, IH. by destruct (is_named names c).
Qed.

(** After the loop of [decompose] no element of these names is left. *)
Lemma find_all_decompose_all names n :
  find_all names (decompose_all names n) = [].
Proof.
  induction n as [s|s|name contents IH] using node_ind'; [done..|].
  rewrite decompose_all_tag, find_all_tag.
  induction IH as [|c cs Hc _ IHcs]; [done|].
  simpl. destruct (is_named names c) eqn:Hn; [done|].
  simpl. by rewrite is_named_decompose_all, Hn, Hc.
Qed.

(** The loop takes nothing else out: a tree without such elements is
    left as it is. *)
Lemma decompose_all_none names n :
  find_all names n = [] → decompose_all names n = n.
Proof.
  induction n as [s|s|name contents IH] using node_ind'; [done..|].
  rewrite decompose_all_tag, find_all_tag. intros Hnone. f_equal.
  induction IH as [|c cs Hc _ IHcs]; [done|].
  simpl in Hnone. apply app_eq_nil in Hnone as [Hhd Htl].
  apply app_eq_nil in Hhd as [Hn Hfa].
  simpl. destruct (is_named names c); [done|].
  simpl. by rewrite Hc, IHcs.
Qed.

(** C4: [_clean_text] splits the text at newlines, trims every line,
    keeps the lines whose trimmed length is above 10 and joins them with
    single newlines.  On the page of the test the scraped text is the
    long paragraph alone: neither the short paragraph nor the text of
    [nav] is in it. *)
Theorem clean_text_keeps_long_lines :
  (∀ text : str, _clean_text text = clean_text_spec text)
  ∧ get_text [nl] (decompose_all irrelevant
                     (Tag (py "body")
                        [ Tag (py "nav") [NavigableString (py "Home")];
                          Tag (py "p") [NavigableString (py "Short")];
                          Tag (py "p") [NavigableString Mock.long_paragraph] ]))
    = py "Short" ++ [nl] ++ Mock.long_paragraph
  ∧ _clean_text (py "Short" ++ [nl] ++ Mock.long_paragraph)
    = Mock.long_paragraph
  ∧ Website__init__ (W := Mock.up) Mock.site 10 []
    = (inr Mock.scraped, [Get Mock.site 10]).
Proof.
  split; [apply _clean_text_spec|].
  split; [reflexivity|]. split; reflexivity.
Qed.

(** C5 on a document without [body], fetched with status 200: the text
    stored keeps the text of its [nav] and its short lines, where the
    removal of the elements and the cleaning that the branch of the
    body applies would leave nothing. *)
Lemma no_body_text_not_cleaned :
  find (py "body") Mock.bare = None
  ∧ (∃ page,
       Website__init__ (W := Mock.up_bare) Mock.site 10 []
       = (inr page, [Get Mock.site 10])
       ∧ text page = py "Home" ++ [nl] ++ py "Short"
       ∧ text page
         ≠ _clean_text (get_text [nl] (decompose_all irrelevant Mock.bare))).
Proof.
  split; [reflexivity|].
  eexists. split; [reflexivity|]. split; [reflexivity|].
  intros Heq. vm_compute in Heq. discriminate Heq.
Qed.

(** On a document with a [body] the text is extracted from the body
    after the elements named script, style, img, input, nav, header and
    footer are taken out of it, none of them being left, as the trimmed
    non-empty strings joined by newlines, and then cleaned. *)
Lemma scrape_body_extraction `{W : Collaborators}
    h u timeout response soup t body :
  scrape_completes h u timeout response soup t →
  find (py "body") soup = Some body →
  ∃ page, Website__init__ u timeout h = (inr page, h ++ [Get u timeout])
    ∧ find_all irrelevant (decompose_all irrelevant body) = []
    ∧ text page
      = _clean_text
          (join [nl] (_all_strings (decompose_all irrelevant body))).
Proof.
  intros Hc Hbody. eexists. split; [by eapply init_completes|].
  simpl. unfold scraped_text. rewrite Hbody.
  split; [apply find_all_decompose_all|done].
Qed.

(** ** Determinism and the batch driver *)

Section Batch.

Context `{W : Collaborators}.

(** One call of [summarize] makes one GET, for its URL. *)
Lemma summarize_events r u h :
  ∃ s added, summarize r u h = (inr s, h ++ added)
             ∧ omap requested added = [u].
Proof.
  destruct (init_returns h u 10) as [page Hinit].
  destruct (decide (status_code page = Some 200%Z)) as [Hst|Hst].
  - eexists _, ([Get u 10] ++ [Chat (model r) (messages_for r page)]).
    rewrite (summarize_200 r u h page _ Hinit Hst).
    by rewrite <- app_assoc.
  - eexists _, [Get u 10].
    by rewrite (summarize_not_200 r u h page _ Hinit Hst).
Qed.

Lemma batch_loop_cons r u urls results h s h' :
  summarize r u h = (inr s, h') →
  batch_loop r (u :: urls) results h
  = batch_loop r urls (<[u := s]> results) h'.
Proof. intros Hs. simpl. by rewrite (bind_inr _ _ _ _ _ Hs). Qed.

(** The loop returns, and its GETs are the URLs in their order. *)
Lemma batch_loop_events r urls results h :
  ∃ m added, batch_loop r urls results h = (inr m, h ++ added)
             ∧ omap requested added = urls.
Proof.
  revert results h. induction urls as [|u urls IH]; intros results h.
  - exists results, []. by rewrite app_nil_r.
  - destruct (summarize_events r u h) as (s & a1 & Hs & Ha1).
    destruct (IH (<[u := s]> results) (h ++ a1)) as (m & a2 & Hm & Ha2).
    exists m, (a1 ++ a2).
    rewrite (batch_loop_cons _ _ _ _ _ _ _ Hs), Hm, app_assoc.
    split; [done|]. by rewrite omap_app, Ha1, Ha2.
Qed.

(** The loop over [pre ++ post] is the loop over [pre], then the loop
    over [post] from the results and the history reached. *)
Lemma batch_loop_app r pre post results h m h' :
  batch_loop r pre results h = (inr m, h') →
  batch_loop r (pre ++ post) results h = batch_loop r post m h'.
Proof.
  revert results h. induction pre as [|u pre IH]; intros results h Hpre.
  - by inversion Hpre.
  - destruct (summarize_events r u h) as (s & a1 & Hs & _).
    rewrite (batch_loop_cons _ _ _ _ _ _ _ Hs) in Hpre.
    simpl app. rewrite (batch_loop_cons _ _ _ _ _ _ _ Hs).
    by apply IH.
Qed.

(** The keys of the result. *)
Lemma batch_loop_dom r urls results h m h' :
  batch_loop r urls results h = (inr m, h') →
  dom m = list_to_set urls ∪ dom results.
Proof.
  revert results h. induction urls as [|u urls IH]; intros results h Hm.
  - inversion Hm. simpl. by rewrite (left_id_L ∅ (∪)).
  - destruct (summarize_events r u h) as (s & a1 & Hs & _).
    rewrite (batch_loop_cons _ _ _ _ _ _ _ Hs) in Hm.
    apply IH in Hm. rewrite Hm, dom_insert_L. simpl.
    rewrite !(assoc_L (∪)). f_equal. apply (comm_L (∪)).
Qed.

(** An entry whose URL does not come again is kept. *)
Lemma batch_loop_lookup_notin r urls results h m h' u :
  u ∉ urls →
  batch_loop r urls results h = (inr m, h') →
  m !! u = results !! u.
Proof.
  revert results h. induction urls as [|v urls IH]; intros results h Hu Hm.
  - by inversion Hm.
  - apply not_elem_of_cons in Hu as [Hne Hu].
    destruct (summarize_events r v h) as (s & a1 & Hs & _).
    rewrite (batch_loop_cons _ _ _ _ _ _ _ Hs) in Hm.
    rewrite (IH _ _ Hu Hm). by rewrite lookup_insert_ne.
Qed.

(** Under deterministic collaborators the page and the summary of a URL
    are the same from every history. *)
Lemma init_deterministic u timeout h h' :
  deterministic →
  (Website__init__ u timeout h).1 = (Website__init__ u timeout h').1.
Proof.
  intros [Hget _].
  destruct (scrape_cases h u timeout)
    as [(e & raw & Hr)|(response & soup & t & Hc)].
  - assert (scrape_raises h' u timeout e raw) as Hr'.
    { destruct Hr as [e Hg|resp e Hg Hst|resp e Hg Hst Hbs
                     |resp soup e Hg Hst Hbs Ht];
        rewrite (Hget h h') in Hg.
      - by apply raises_get.
      - by apply (raises_status _ _ _ resp).
      - by apply (raises_parse _ _ _ resp).
      - by apply (raises_title _ _ _ resp). }
    by rewrite (init_raises _ _ _ _ _ Hr), (init_raises _ _ _ _ _ Hr').
  - assert (scrape_completes h' u timeout response soup t) as Hc'.
    { destruct Hc as [resp sp t' Hg Hst Hbs Ht].
      rewrite (Hget h h') in Hg. by constructor. }
    by rewrite (init_completes _ _ _ _ _ _ Hc),
      (init_completes _ _ _ _ _ _ Hc').
Qed.

Lemma summarize_deterministic r u h h' :
  deterministic →
  (summarize r u h).1 = (summarize r u h').1.
Proof.
  intros Hdet.
  destruct (init_returns h u 10) as [page Hinit].
  destruct (init_returns h' u 10) as [page' Hinit'].
  pose proof (init_deterministic u 10 h h' Hdet) as Heq.
  rewrite Hinit, Hinit' in Heq. simpl in Heq.
  injection Heq as <-.
  destruct Hdet as [_ Hchat].
  destruct (decide (status_code page = Some 200%Z)) as [Hst|Hst].
  - rewrite (summarize_200 r u h page _ Hinit Hst),
      (summarize_200 r u h' page _ Hinit' Hst). simpl.
    by rewrite (Hchat (h ++ [Get u 10]) (h' ++ [Get u 10])).
  - by rewrite (summarize_not_200 r u h page _ Hinit Hst),
      (summarize_not_200 r u h' page _ Hinit' Hst).
Qed.

End Batch.

(** C6: [batch_summarize] returns a mapping after calling [summarize]
    on every URL, in the order of the list: the GETs it adds to the
    history are for the URLs of the list in that order, and the keys of
    the mapping are the URLs.  The value of a URL is the result of the
    call made for its last occurrence.  Under deterministic
    collaborators the mapping for [a; b; a] has two keys and its value
    for [a] is the result of a direct call of [summarize] on [a]. *)
Theorem batch_summarize_last_wins `{W : Collaborators} r :
  (∀ urls h, ∃ m added,
      batch_summarize r urls h = (inr m, h ++ added)
      ∧ omap requested added = urls
      ∧ dom m = list_to_set urls)
  ∧ (∀ pre u post h, u ∉ post →
      ∃ m1 h1 s h2 m h3,
        batch_summarize r pre h = (inr m1, h1)
        ∧ summarize r u h1 = (inr s, h2)
        ∧ batch_summarize r (pre ++ u :: post) h = (inr m, h3)
        ∧ m !! u = Some s)
  ∧ (deterministic → ∀ a b h h0, a ≠ b →
      ∃ m h' s,
        batch_summarize r [a; b; a] h = (inr m, h')
        ∧ size m = 2%nat
        ∧ (summarize r a h0).1 = inr s
        ∧ m !! a = Some s).
Proof.
  assert (∀ pre u post h, u ∉ post →
      ∃ m1 h1 s h2 m h3,
        batch_summarize r pre h = (inr m1, h1)
        ∧ summarize r u h1 = (inr s, h2)
        ∧ batch_summarize r (pre ++ u :: post) h = (inr m, h3)
        ∧ m !! u = Some s) as Hlast.
  { intros pre u post h Hu. unfold batch_summarize.
    destruct (batch_loop_events r pre ∅ h) as (m1 & a1 & Hm1 & _).
    destruct (summarize_events r u (h ++ a1)) as (s & a2 & Hs & _).
    destruct (batch_loop_events r post (<[u := s]> m1) ((h ++ a1) ++ a2))
      as (m & a3 & Hm & _).
    exists m1, (h ++ a1), s, ((h ++ a1) ++ a2), m, (((h ++ a1) ++ a2) ++ a3).
    split; [done|]. split; [done|].
    rewrite (batch_loop_app _ _ _ _ _ _ _ Hm1),
      (batch_loop_cons _ _ _ _ _ _ _ Hs).
    split; [done|].
    rewrite (batch_loop_lookup_notin _ _ _ _ _ _ _ Hu Hm).
    apply lookup_insert_eq. }
  split; [|split; [exact Hlast|]].
  - intros urls h. unfold batch_summarize.
    destruct (batch_loop_events r urls ∅ h) as (m & added & Hm & Hadded).
    exists m, added. split; [done|]. split; [done|].
    rewrite (batch_loop_dom _ _ _ _ _ _ Hm), dom_empty_L.
    apply (right_id_L ∅ (∪)).
  - intros Hdet a b h h0 Hne.
    destruct (Hlast [a; b] a [] h (not_elem_of_nil a))
      as (m1 & h1 & s & h2 & m & h3 & _ & Hs & Hm & Hlk).
    exists m, h3, s. split; [exact Hm|].
    split; [|split; [|exact Hlk]].
    + unfold batch_summarize in Hm.
      rewrite <- size_dom, (batch_loop_dom _ _ _ _ _ _ Hm), dom_empty_L.
      rewrite list_to_set_app_L, !list_to_set_cons, list_to_set_nil.
      rewrite !(right_id_L ∅ (∪)).
      rewrite (comm_L (∪) {[a]} {[b]}), <- (assoc_L (∪)), (idemp_L (∪)).
      rewrite (comm_L (∪) {[b]} {[a]}).
      rewrite size_union by (apply disjoint_singleton_l;
                             by apply not_elem_of_singleton).
      by rewrite !size_singleton.
    + by rewrite (summarize_deterministic r a h0 h1 Hdet), Hs.
Qed.

Lemma batch_summarize_last_wins_witness :
  ∃ m,
    (batch_summarize (W := Mock.up) Mock.reader [py "a"; py "b"; py "a"] []).1
    = inr m
    ∧ size m = 2%nat
    ∧ m !! py "a" = Some (py "A page.").
Proof.
  destruct (batch_summarize_last_wins (W := Mock.up) Mock.reader)
    as (_ & Hlast & Hdet).
  destruct (Hlast [py "a"; py "b"] (py "a") [] [] (not_elem_of_nil _))
    as (m1 & h1 & s1 & h2 & m' & h3 & _ & _ & Hm' & Hlk').
  destruct (Hdet (conj (λ _ _ _ _, eq_refl) (λ _ _ _ _, eq_refl))
              (py "a") (py "b") [] [] ltac:(vm_compute; discriminate))
    as (m & h' & s & Hm & Hsize & Hs & Hlk).
  exists m. rewrite Hm. split; [reflexivity|]. split; [exact Hsize|].
  rewrite Hlk. f_equal. vm_compute in Hs. by inversion Hs.
Defined.

(** C7: [set_system_prompt] stores any string as it is and leaves the
    model name alone; a [summarize] made with the reader it returns, on
    a page scraped with status 200, calls the chat client once, with a
    system message whose content is that string and the user message of
    the page. *)
Theorem set_system_prompt_reaches_model `{W : Collaborators}
    r p u h response soup t :
  scrape_completes h u 10 response soup t →
  r_status_code response = 200%Z →
  system_prompt (set_system_prompt r p) = p
  ∧ model (set_system_prompt r p) = model r
  ∧ ∃ page,
      Website__init__ u 10 h = (inr page, h ++ [Get u 10])
      ∧ (summarize (set_system_prompt r p) u h).2
        = h ++ [Get u 10;
                Chat (model r)
                  [ {| role := py "system"; content := p |};
                    {| role := py "user";
                       content := user_prompt_for page |} ]].
Proof.
  intros Hc H200. split; [done|]. split; [done|].
  pose proof (init_completes _ _ _ _ _ _ Hc) as Hinit.
  eexists. split; [exact Hinit|].
  rewrite (summarize_200 _ u h _ _ Hinit) by (simpl; by rewrite H200).
  simpl. by rewrite <- app_assoc.
Qed.

Lemma set_system_prompt_reaches_model_witness :
  (summarize (W := Mock.up)
     (set_system_prompt Mock.reader (py "Be brief.")) Mock.site []).2
  = [Get Mock.site 10;
     Chat (py "llama3.2")
       [ {| role := py "system"; content := py "Be brief." |};
         {| role := py "user"; content := user_prompt_for Mock.scraped |} ]].
Proof.
  destruct (set_system_prompt_reaches_model (W := Mock.up)
              Mock.reader (py "Be brief.") Mock.site []
              {| r_status_code := 200; r_content := [] |} Mock.page (py "T"))
    as (_ & _ & page & Hinit & Hchat).
  - by constructor.
  - reflexivity.
  - rewrite Hchat. vm_compute in Hinit. by inversion Hinit.
Defined.

(** C8: the [Website] constructor always returns a page.  Either the
    scrape completed: the title is the trimmed string of the title
    element, or [No title found] when the document has no title element,
    and the text is the text scraped from the document.  Or the scrape
    raised: the title is [Error loading website] and the text is
    [Failed to load website content: ] followed by the message. *)
Theorem website_title_and_text `{W : Collaborators} h u timeout :
  ∃ page, Website__init__ u timeout h = (inr page, h ++ [Get u timeout])
    ∧ ((∃ response soup,
          scrape_completes h u timeout response soup (title page)
          ∧ (find (py "title") soup = None
             ∧ title page = py "No title found"
             ∨ ∃ tag s, find (py "title") soup = Some tag
                        ∧ string_of tag = Some s
                        ∧ title page = strip s)
          ∧ text page = scraped_text soup)
       ∨ (∃ e raw,
            scrape_raises h u timeout e raw
            ∧ title page = py "Error loading website"
            ∧ text page = py "Failed to load website content: " ++ msg e)).
Proof.
  destruct (scrape_cases h u timeout)
    as [(e & raw & Hr)|(response & soup & t & Hc)].
  - exists (error_page u raw (msg e)). split; [by apply init_raises|].
    right. by exists e, raw.
  - eexists. split; [by eapply init_completes|].
    left. exists response, soup. split; [exact Hc|]. split; [|done].
    destruct Hc as [resp sp t' _ _ _ Ht]. simpl.
    unfold extract_title in Ht.
    destruct (find (py "title") sp) as [tag|]; [|left; by inversion Ht].
    destruct (string_of tag) as [s|] eqn:Hs; [|done].
    right. exists tag, s. by inversion Ht.
Qed.

(** C9: under deterministic collaborators, two calls of [summarize] in
    a row, with the same reader and the same URL, return the same
    string. *)
Theorem summarize_twice `{W : Collaborators} r u h :
  deterministic →
  ∃ s h1 h2,
    summarize r u h = (inr s, h1) ∧ summarize r u h1 = (inr s, h2).
Proof.
  intros Hdet.
  destruct (summarize_returns r u h) as (s & h1 & Hs).
  destruct (summarize_returns r u h1) as (s' & h2 & Hs').
  pose proof (summarize_deterministic r u h h1 Hdet) as Heq.
  rewrite Hs, Hs' in Heq. simpl in Heq. injection Heq as <-.
  by exists s, h1, h2.
Qed.

Lemma summarize_twice_witness :
  ∃ s h1 h2,
    summarize (W := Mock.up) Mock.reader Mock.site [] = (inr s, h1)
    ∧ summarize (W := Mock.up) Mock.reader Mock.site h1 = (inr s, h2).
Proof.
  apply (summarize_twice (W := Mock.up) Mock.reader Mock.site []).
  split; reflexivity.
Defined.

(** C10, as stated, fails: a page whose own title is
    [Error loading website] is scraped with status 200 and keeps that
    title. *)
Lemma status_with_error_title :
  ∃ page,
    Website__init__ (W := Mock.up_misnamed) Mock.site 10 []
    = (inr page, [Get Mock.site 10])
    ∧ status_code page = Some 200%Z
    ∧ title page = py "Error loading website".
Proof. eexists. split; [reflexivity|]. split; reflexivity. Qed.

(** C10, amended: after construction [status_code] is not [None] exactly
    when the scrape returned without raising.  When the title cannot be
    extracted, the scrape raises with the status already stored, and the
    handler puts [None] back.  A [status_code] that is not [None] is the
    status of the response fetched for the URL, and the title is then
    the one extracted from the document parsed from that response: the
    trimmed string of its title element, or [No title found] when it has
    none. *)
Theorem status_code_iff_scrape_completed `{W : Collaborators} h u timeout :
  ∃ page, Website__init__ u timeout h = (inr page, h ++ [Get u timeout])
    ∧ (status_code page ≠ None
       ↔ (_scrape_website timeout {| self := blank u; history := h |}).1
         = inr tt)
    ∧ (∀ response soup e,
         requests_get h u timeout = inr response →
         raise_for_status response = None →
         BeautifulSoup (r_content response) = inr soup →
         extract_title soup = inl e →
         status_code
           (self (_scrape_website timeout
                    {| self := blank u; history := h |}).2)
         = Some (r_status_code response)
         ∧ status_code page = None)
    ∧ (status_code page ≠ None →
       ∃ response soup,
         requests_get h u timeout = inr response
         ∧ raise_for_status response = None
         ∧ BeautifulSoup (r_content response) = inr soup
         ∧ status_code page = Some (r_status_code response)
         ∧ extract_title soup = inr (title page)
         ∧ (find (py "title") soup = None
            ∧ title page = py "No title found"
            ∨ ∃ tag s, find (py "title") soup = Some tag
                       ∧ string_of tag = Some s
                       ∧ title page = strip s)).
Proof.
  destruct (scrape_cases h u timeout)
    as [(e & raw & Hr)|(response & soup & t & Hc)].
  - exists (error_page u raw (msg e)). split; [by apply init_raises|].
    split; [|split].
    + rewrite (scrape_result_raises _ _ _ _ _ Hr). by split.
    + intros response soup e' Hget Hst Hbs Ht. split; [|done].
      unfold _scrape_website, mbind, Py_bind, gets, call_get, outcome,
        set_status_code, set_raw_content, modify.
      simpl. rewrite Hget, Hst. simpl. by rewrite Hbs, Ht.
    + done.
  - eexists. split; [by eapply init_completes|].
    split; [|split].
    + rewrite (scrape_result_completes _ _ _ _ _ _ Hc). by split.
    + intros response' soup' e' Hget Hst Hbs Ht.
      destruct Hc as [resp sp t' Hget' Hst' Hbs' Ht'].
      rewrite Hget in Hget'. injection Hget' as <-.
      rewrite Hbs in Hbs'. injection Hbs' as <-.
      rewrite Ht in Ht'. discriminate Ht'.
    + intros _. exists response, soup. simpl.
      destruct Hc as [resp sp t' Hget Hst Hbs Ht].
      do 5 (split; [done|]).
      unfold extract_title in Ht.
      destruct (find (py "title") sp) as [tag|]; [|left; by inversion Ht].
      destruct (string_of tag) as [s0|] eqn:Hs; [|done].
      right. exists tag, s0. by inversion Ht.
Qed.

Lemma status_code_iff_scrape_completed_witness :
  ∃ page,
    Website__init__ (W := Mock.up_untitled) Mock.site 10 []
    = (inr page, [Get Mock.site 10])
    ∧ status_code
        (self (_scrape_website (W := Mock.up_untitled) 10
                 {| self := blank Mock.site; history := [] |}).2)
      = Some 200%Z
    ∧ status_code page = None.
Proof.
  destruct (status_code_iff_scrape_completed (W := Mock.up_untitled)
              [] Mock.site 10) as (page & Hinit & _ & Hreset & _).
  exists page. split; [exact Hinit|].
  apply (Hreset {| r_status_code := 200; r_content := [] |} Mock.untitled
           AttributeError_strip); reflexivity.
Defined.

(** ** Facts on the string methods *)

Lemma lstrip_suffix s : lstrip s `suffix_of` s.
Proof.
  induction s as [|c s IH]; simpl; [done|].
  destruct (isspace c); [by apply suffix_cons_r|done].
Qed.

Lemma rstrip_prefix s : rstrip s `prefix_of` s.
Proof.
  unfold rstrip. apply prefix_suffix_reverse.
  rewrite reverse_involutive. apply lstrip_suffix.
Qed.

Lemma strip_sublist s : strip s `sublist_of` s.
Proof.
  unfold strip.
  destruct (rstrip_prefix (lstrip s)) as [k1 Hk1].
  destruct (lstrip_suffix s) as [k2 Hk2].
  rewrite Hk2 at 2. rewrite Hk1 at 2.
  by apply sublist_inserts_l, sublist_inserts_r.
Qed.

Lemma lstrip_head s c : head (lstrip s) = Some c → isspace c = false.
Proof.
  induction s as [|c' s IH]; simpl; [done|].
  destruct (isspace c') eqn:Hc'; [done|].
  simpl. intros [= <-]. done.
Qed.

Lemma lstrip_id s :
  (∀ c, head s = Some c → isspace c = false) → lstrip s = s.
Proof.
  destruct s as [|c s]; simpl; [done|].
  intros Hc. by rewrite (Hc c).
Qed.

Lemma rstrip_last s c : last (rstrip s) = Some c → isspace c = false.
Proof. unfold rstrip. rewrite last_reverse. apply lstrip_head. Qed.

Lemma rstrip_id s :
  (∀ c, last s = Some c → isspace c = false) → rstrip s = s.
Proof.
  intros Hc. unfold rstrip. rewrite lstrip_id.
  - apply reverse_involutive.
  - intros c. rewrite head_reverse. apply Hc.
Qed.

Lemma rstrip_head s c : head (rstrip s) = Some c → head s = Some c.
Proof.
  destruct (rstrip_prefix s) as [k Hk]. rewrite Hk at 2.
  destruct (rstrip s); [done|]. done.
Qed.

(** A trimmed string is left as it is when trimmed again. *)
Lemma strip_idemp s : strip (strip s) = strip s.
Proof.
  unfold strip at 1.
  rewrite lstrip_id.
  - apply rstrip_id. intros c. unfold strip. apply rstrip_last.
  - intros c Hc. unfold strip in Hc.
    apply rstrip_head in Hc. by apply lstrip_head in Hc.
Qed.

Lemma split_cons_inv sep s : ∃ l ls, split sep s = l :: ls.
Proof.
  induction s as [|c s (l & ls & IH)]; simpl; [by eexists _, _|].
  destruct (c =? sep); [by eexists _, _|].
  rewrite IH. by eexists _, _.
Qed.

(** Splitting at a character and joining with it gives the string
    back. *)
Lemma join_split sep s : join [sep] (split sep s) = s.
Proof.
  induction s as [|c s IH]; simpl; [done|].
  destruct (split_cons_inv sep s) as (l & ls & Hs).
  destruct (N.eqb_spec c sep) as [->|Hne].
  - rewrite Hs in *. simpl. by rewrite <- IH.
  - rewrite Hs in *. rewrite <- IH. by destruct ls.
Qed.

(** No piece of a split holds the separator. *)
Lemma split_no_sep sep s : Forall (λ l, sep ∉ l) (split sep s).
Proof.
  induction s as [|c s IH]; simpl.
  - constructor; [apply not_elem_of_nil|constructor].
  - destruct (N.eqb_spec c sep) as [->|Hne].
    + constructor; [apply not_elem_of_nil|done].
    + destruct (split sep s) as [|l ls].
      * constructor; [|constructor].
        intros Hin. apply list_elem_of_singleton in Hin. by subst.
      * inversion IH as [|l' ls' Hl Hls]; subst.
        constructor; [|done].
        intros Hin. apply elem_of_cons in Hin as [->|Hin]; [done|by apply Hl].
Qed.

Lemma split_no_sep_single sep l : sep ∉ l → split sep l = [l].
Proof.
  induction l as [|c l IH]; simpl; [done|].
  intros Hnin. apply not_elem_of_cons in Hnin as [Hne Hnin].
  destruct (N.eqb_spec c sep) as [->|_]; [done|].
  by rewrite (IH Hnin).
Qed.

Lemma split_app_sep sep l rest :
  sep ∉ l → split sep (l ++ sep :: rest) = l :: split sep rest.
Proof.
  induction l as [|c l IH]; simpl.
  - intros _. by rewrite N.eqb_refl.
  - intros Hnin. apply not_elem_of_cons in Hnin as [Hne Hnin].
    destruct (N.eqb_spec c sep) as [->|_]; [done|].
    by rewrite (IH Hnin).
Qed.

(** Joining pieces without the separator and splitting gives the pieces
    back, when there is at least one. *)
Lemma split_join sep ls :
  ls ≠ [] → Forall (λ l, sep ∉ l) ls → split sep (join [sep] ls) = ls.
Proof.
  induction ls as [|l ls IH]; [done|].
  intros _ Hall. inversion Hall as [|l' ls' Hl Hls]; subst.
  destruct ls as [|l2 ls].
  - simpl. by apply split_no_sep_single.
  - change (join [sep] (l :: l2 :: ls))
      with (l ++ sep :: join [sep] (l2 :: ls)).
    rewrite split_app_sep by done. by rewrite IH.
Qed.

Lemma join_cons sep l ls :
  join sep (l :: ls)
  = l ++ match ls with [] => [] | _ => sep ++ join sep ls end.
Proof. destruct ls; simpl; [by rewrite app_nil_r|done]. Qed.

(** Dropping pieces and taking out characters of the pieces that stay
    takes out characters of the joined string. *)
Lemma join_filter_sublist sep (P : str → Prop) `{∀ l, Decision (P l)}
    (f : str → str) ls :
  (∀ l, f l `sublist_of` l) →
  join sep (filter P (f <$> ls)) `sublist_of` join sep ls.
Proof.
  intros Hf. induction ls as [|l ls IH]; [done|].
  rewrite fmap_cons, filter_cons, (join_cons sep l ls).
  destruct (decide (P (f l))) as [HP|HP].
  - rewrite join_cons. apply sublist_app; [apply Hf|].
    destruct (filter P (f <$> ls)) as [|k ks] eqn:Hk;
      [apply sublist_nil_l|].
    destruct ls as [|l2 ls]; [by inversion Hk|].
    by apply sublist_app.
  - destruct ls as [|l2 ls]; [apply sublist_nil_l|].
    by apply sublist_inserts_l, sublist_inserts_l.
Qed.

(** ** More on [_clean_text] *)

(** The lines [_clean_text] keeps: each is longer than 10, trimmed, and
    free of newlines. *)
Lemma kept_lines text :
  Forall (λ l, (10 < length l)%nat ∧ strip l = l ∧ nl ∉ l)
    (filter (λ l, 10 < length l)%nat (strip <$> split nl text)).
Proof.
  apply Forall_forall. intros l Hl.
  apply list_elem_of_filter in Hl as [Hlen Hl].
  apply list_elem_of_fmap in Hl as (l0 & -> & Hl0).
  split; [done|]. split; [apply strip_idemp|].
  intros Hin.
  pose proof (split_no_sep nl text) as Hno.
  rewrite Forall_forall in Hno. apply (Hno l0 Hl0).
  by apply (elem_of_sublist _ _ _ Hin (strip_sublist l0)).
Qed.

Lemma filter_all {A} (P : A → Prop) `{∀ x, Decision (P x)} (l : list A) :
  Forall P l → filter P l = l.
Proof.
  induction 1 as [|x l Hx _ IH]; [done|].
  by rewrite filter_cons_True, IH.
Qed.

Lemma filter_none {A} (P : A → Prop) `{∀ x, Decision (P x)} (l : list A) :
  filter P l = [] ↔ Forall (λ x, ¬ P x) l.
Proof.
  induction l as [|x l IH]; [by split; [constructor|]|].
  rewrite filter_cons. destruct (decide (P x)) as [HP|HP].
  - split; [done|]. intros Hall. by inversion Hall.
  - rewrite IH. split; [by constructor|]. intros Hall. by inversion Hall.
Qed.

Lemma fmap_fixed {A} (f : A → A) (l : list A) :
  Forall (λ x, f x = x) l → f <$> l = l.
Proof.
  induction 1 as [|x l Hx _ IH]; [done|].
  by rewrite fmap_cons, Hx, IH.
Qed.

Lemma clean_text_kept text :
  _clean_text text
  = join [nl] (filter (λ l, 10 < length l)%nat (strip <$> split nl text)).
Proof. apply _clean_text_spec. Qed.

Lemma clean_text_sub text : _clean_text text `sublist_of` text.
Proof.
  rewrite clean_text_kept. rewrite <- (join_split nl text) at 2.
  apply join_filter_sublist, strip_sublist.
Qed.

(** X1: the cleaned text is the text with characters taken out: nothing
    is added, nothing is reordered, and it is never longer. *)
Theorem clean_text_sublist (text : str) :
  _clean_text text `sublist_of` text
  ∧ (length (_clean_text text) ≤ length text)%nat.
Proof.
  split; [apply clean_text_sub|]. apply sublist_length, clean_text_sub.
Qed.

(** X2: the cleaned text is empty exactly when no line of the text,
    trimmed, is longer than 10 characters. *)
Theorem clean_text_empty_iff (text : str) :
  _clean_text text = []
  ↔ Forall (λ line, length (strip line) ≤ 10)%nat (split nl text).
Proof.
  rewrite clean_text_kept.
  pose proof (kept_lines text) as Hkept.
  split.
  - intros Hnil.
    destruct (filter _ (strip <$> split nl text)) as [|k ks] eqn:Hk.
    + apply filter_none in Hk. rewrite Forall_fmap in Hk.
      eapply Forall_impl; [exact Hk|]. simpl. intros l Hl. lia.
    + inversion Hkept as [|k' ks' (Hlen & _) _]; subst.
      rewrite join_cons in Hnil. destruct k; [simpl in Hlen; lia|done].
  - intros Hall.
    assert (filter (λ l, 10 < length l)%nat (strip <$> split nl text) = [])
      as ->; [|done].
    apply filter_none. rewrite Forall_fmap.
    eapply Forall_impl; [exact Hall|]. simpl. intros l Hl. lia.
Qed.

(** A cleaned text that is not empty splits, at its newlines, into the
    lines that were kept. *)
Lemma clean_text_split text :
  _clean_text text = []
  ∨ split nl (_clean_text text)
    = filter (λ l, 10 < length l)%nat (strip <$> split nl text)
    ∧ Forall (λ line, (10 < length line)%nat ∧ strip line = line)
        (split nl (_clean_text text)).
Proof.
  rewrite clean_text_kept.
  pose proof (kept_lines text) as Hkept.
  destruct (filter _ (strip <$> split nl text)) as [|k ks] eqn:Hk;
    [by left|right].
  rewrite split_join; [| done |].
  - split; [done|]. eapply Forall_impl; [exact Hkept|].
    by intros l (Hlen & Hl & _).
  - eapply Forall_impl; [exact Hkept|]. by intros l (_ & _ & Hl).
Qed.

(** X3: a cleaned text is empty, or each of its lines is trimmed and
    longer than 10 characters: it has no blank line and no short line. *)
Theorem clean_text_lines (text : str) :
  _clean_text text = []
  ∨ Forall (λ line, (10 < length line)%nat ∧ strip line = line)
      (split nl (_clean_text text)).
Proof.
  destruct (clean_text_split text) as [Hnil|[_ Hall]]; [by left|by right].
Qed.

Lemma clean_text_fixed text :
  _clean_text (_clean_text text) = _clean_text text.
Proof.
  destruct (clean_text_split text) as [Hnil|[Hsplit Hall]].
  - rewrite Hnil. reflexivity.
  - rewrite (clean_text_kept (_clean_text text)).
    rewrite (clean_text_kept text) at 2. f_equal.
    rewrite <- Hsplit.
    assert (strip <$> split nl (_clean_text text)
            = split nl (_clean_text text)) as ->.
    { apply fmap_fixed. eapply Forall_impl; [exact Hall|].
      by intros l [_ Hl]. }
    apply filter_all. eapply Forall_impl; [exact Hall|].
    by intros l [Hlen _].
Qed.

(** ** More on the tree operations *)

(** The texts below a node, before trimming. *)
Lemma texts_tag name contents :
  omap text_of (descendants (Tag name contents))
  = flat_map (λ c, omap text_of (c :: descendants c)) contents.
Proof.
  change (descendants (Tag name contents))
    with (flat_map (λ c, c :: descendants c) contents).
  induction contents as [|c cs IH]; [done|].
  change (omap text_of ((c :: descendants c)
                        ++ flat_map (λ c, c :: descendants c) cs)
          = omap text_of (c :: descendants c)
            ++ flat_map (λ c, omap text_of (c :: descendants c)) cs).
  by rewrite omap_app, IH.
Qed.

Lemma text_of_decompose_all names n :
  text_of (decompose_all names n) = text_of n.
Proof. by destruct n. Qed.

Lemma texts_decompose_all names n :
  omap text_of (descendants (decompose_all names n))
  `sublist_of` omap text_of (descendants n).
Proof.
  induction n as [s|s|name contents IH] using node_ind'; [done..|].
  rewrite decompose_all_tag, !texts_tag.
  induction IH as [|c cs Hc _ IHcs]; [done|].
  simpl flat_map. destruct (is_named names c).
  - simpl. by apply sublist_inserts_l.
  - simpl flat_map. apply sublist_app; [|exact IHcs].
    rewrite text_of_decompose_all.
    destruct (text_of c); [apply sublist_skip|]; exact Hc.
Qed.

Lemma List_filter_sublist {A} (p : A → bool) (l1 l2 : list A) :
  l1 `sublist_of` l2 → List.filter p l1 `sublist_of` List.filter p l2.
Proof.
  induction 1 as [|x l1 l2 _ IH|x l1 l2 _ IH]; simpl; [done|..].
  - destruct (p x); [by apply sublist_skip|done].
  - destruct (p x); [by apply sublist_cons|done].
Qed.

Lemma join_sublist sep (ls1 ls2 : list str) :
  ls1 `sublist_of` ls2 → join sep ls1 `sublist_of` join sep ls2.
Proof.
  induction 1 as [|l ls1 ls2 Hsub IH|l ls1 ls2 Hsub IH]; [done|..].
  - rewrite !join_cons. apply sublist_app; [done|].
    destruct ls1 as [|k1 ks1]; [apply sublist_nil_l|].
    destruct ls2 as [|k2 ks2]; [by apply sublist_nil_r in Hsub|].
    by apply sublist_app.
  - rewrite (join_cons sep l ls2).
    destruct ls2 as [|k2 ks2].
    + apply sublist_nil_r in Hsub as ->. apply sublist_nil_l.
    + by apply sublist_inserts_l, sublist_inserts_l.
Qed.

Lemma all_strings_decompose_all names n :
  _all_strings (decompose_all names n) `sublist_of` _all_strings n.
Proof.
  unfold _all_strings.
  apply List_filter_sublist, fmap_sublist, texts_decompose_all.
Qed.

(** X5: taking the elements out a second time changes nothing, and a
    tree that holds no element of these names is left as it is. *)
Theorem decompose_all_idemp names n :
  decompose_all names (decompose_all names n) = decompose_all names n
  ∧ (find_all names n = [] → decompose_all names n = n).
Proof.
  split; [|apply decompose_all_none].
  apply decompose_all_none, find_all_decompose_all.
Qed.

Lemma decompose_all_idemp_witness :
  decompose_all irrelevant Mock.misnamed = Mock.misnamed.
Proof.
  apply (decompose_all_idemp irrelevant Mock.misnamed). reflexivity.
Defined.

(** X6: the text extracted after the elements are taken out is the text
    extracted before with characters taken out: the loop of [decompose]
    adds no text and moves none. *)
Theorem get_text_decompose_all_sublist sep names n :
  _all_strings (decompose_all names n) `sublist_of` _all_strings n
  ∧ get_text sep (decompose_all names n) `sublist_of` get_text sep n.
Proof.
  split; [apply all_strings_decompose_all|].
  unfold get_text. apply join_sublist, all_strings_decompose_all.
Qed.

(** ** More on [Website] and [summarize] *)

(** X7: the page the constructor returns carries the URL it was given,
    whatever happened, and the constructor made one GET for it. *)
Theorem website_url_kept `{W : Collaborators} h u timeout :
  ∃ page, Website__init__ u timeout h = (inr page, h ++ [Get u timeout])
          ∧ url page = u.
Proof.
  destruct (scrape_cases h u timeout)
    as [(e & raw & Hr)|(response & soup & t & Hc)].
  - eexists. split; [by apply init_raises|done].
  - eexists. split; [by eapply init_completes|done].
Qed.

(** X8: the title of a page that has a status has no white space at
    either end. *)
Theorem scraped_title_trimmed `{W : Collaborators} h u timeout page h' :
  Website__init__ u timeout h = (inr page, h') →
  status_code page ≠ None →
  strip (title page) = title page.
Proof.
  intros Hinit Hst.
  destruct (scrape_cases h u timeout)
    as [(e & raw & Hr)|(response & soup & t & Hc)].
  - rewrite (init_raises _ _ _ _ _ Hr) in Hinit.
    injection Hinit as <- _. done.
  - rewrite (init_completes _ _ _ _ _ _ Hc) in Hinit.
    injection Hinit as <- _. simpl.
    destruct Hc as [resp sp t' _ _ _ Ht]. unfold extract_title in Ht.
    destruct (find (py "title") sp) as [tag|].
    + destruct (string_of tag) as [s|]; [|done].
      injection Ht as <-. apply strip_idemp.
    + injection Ht as <-. reflexivity.
Qed.

Lemma scraped_title_trimmed_witness :
  strip (title Mock.scraped) = title Mock.scraped.
Proof.
  apply (scraped_title_trimmed (W := Mock.up) [] Mock.site 10 Mock.scraped
           [Get Mock.site 10]); [reflexivity|done].
Defined.

(** X9: when the document has a body, the text of the page is made of
    characters of the text of the body, in their order, and cleaning it
    again changes nothing. *)
Theorem scraped_body_text `{W : Collaborators}
    h u timeout response soup t body :
  scrape_completes h u timeout response soup t →
  find (py "body") soup = Some body →
  ∃ page, Website__init__ u timeout h = (inr page, h ++ [Get u timeout])
    ∧ text page `sublist_of` get_text [nl] body
    ∧ _clean_text (text page) = text page.
Proof.
  intros Hc Hbody. eexists. split; [by eapply init_completes|].
  simpl. unfold scraped_text. rewrite Hbody. split.
  - etrans; [apply clean_text_sub|].
    unfold get_text. apply join_sublist, all_strings_decompose_all.
  - apply clean_text_fixed.
Qed.

Lemma scraped_body_text_witness :
  ∃ page,
    Website__init__ (W := Mock.up) Mock.site 10 []
    = (inr page, [Get Mock.site 10])
    ∧ _clean_text (text page) = text page.
Proof.
  destruct (scraped_body_text (W := Mock.up) [] Mock.site 10
              {| r_status_code := 200; r_content := [] |} Mock.page (py "T")
              (Tag (py "body")
                 [ Tag (py "nav") [NavigableString (py "Home")];
                   Tag (py "p") [NavigableString (py "Short")];
                   Tag (py "p") [NavigableString Mock.long_paragraph] ]))
    as (page & Hinit & _ & Hclean).
  - by constructor.
  - reflexivity.
  - by exists page.
Defined.

(** X10: a page that was scraped to the end with a status other than
    200 is reported as a failure: [summarize] returns the failure
    message after the one GET and does not call the chat client. *)
Theorem summarize_other_status `{W : Collaborators} r u h response soup t :
  scrape_completes h u 10 response soup t →
  r_status_code response ≠ 200%Z →
  summarize r u h = (inr (failure_message u), h ++ [Get u 10]).
Proof.
  intros Hc Hne.
  apply (summarize_not_200 r u h _ _ (init_completes _ _ _ _ _ _ Hc)).
  simpl. by intros [= Heq].
Qed.

Lemma summarize_other_status_witness :
  Website__init__ (W := Cases.no_content) Mock.site 10 []
  = (inr Cases.scraped_204, [Get Mock.site 10])
  ∧ summarize (W := Cases.no_content) Mock.reader Mock.site []
    = (inr (failure_message Mock.site), [Get Mock.site 10]).
Proof.
  split; [reflexivity|].
  apply (summarize_other_status (W := Cases.no_content) Mock.reader Mock.site
           [] {| r_status_code := 204; r_content := [] |} Mock.page (py "T")).
  - by constructor.
  - done.
Defined.

(** X11: when the response is good and parsed but the title element
    holds no single string, the constructor returns the error page with
    the message of the attribute error, and keeps the rendered document
    in [raw_content]. *)
Theorem title_without_string `{W : Collaborators}
    h u timeout response soup tag :
  requests_get h u timeout = inr response →
  raise_for_status response = None →
  BeautifulSoup (r_content response) = inr soup →
  find (py "title") soup = Some tag →
  string_of tag = None →
  Website__init__ u timeout h
  = (inr {| url := u;
            title := py "Error loading website";
            text := py "Failed to load website content: "
                    ++ py "'NoneType' object has no attribute 'strip'";
            raw_content := soup_str soup;
            status_code := None |},
     h ++ [Get u timeout]).
Proof.
  intros Hget Hst Hbs Hfind Hnone.
  apply (init_raises h u timeout AttributeError_strip (soup_str soup)).
  apply (raises_title _ _ _ response); [done..|].
  unfold extract_title. by rewrite Hfind, Hnone.
Qed.

Lemma title_without_string_witness :
  ∃ page,
    Website__init__ (W := Mock.up_untitled) Mock.site 10 []
    = (inr page, [Get Mock.site 10])
    ∧ title page = py "Error loading website"
    ∧ status_code page = None.
Proof.
  eexists. split; [|split].
  - apply (title_without_string (W := Mock.up_untitled) [] Mock.site 10
             {| r_status_code := 200; r_content := [] |} Mock.untitled
             (Tag (py "title") [])); reflexivity.
  - reflexivity.
  - reflexivity.
Defined.

(** X12: when the page was scraped with status 200 and the chat client
    answers, [summarize] returns the content of the answer as it is,
    after one GET and one call of the chat client. *)
Theorem summarize_returns_answer `{W : Collaborators}
    r u h response soup t answer :
  scrape_completes h u 10 response soup t →
  r_status_code response = 200%Z →
  ollama_chat (h ++ [Get u 10]) (model r)
    (messages_for r {| url := u; title := t; text := scraped_text soup;
                       raw_content := soup_str soup;
                       status_code := Some 200%Z |})
  = inr answer →
  ∃ messages,
    summarize r u h
    = (inr (message_content answer),
       h ++ [Get u 10; Chat (model r) messages]).
Proof.
  intros Hc H200 Hchat.
  pose proof (init_completes _ _ _ _ _ _ Hc) as Hinit.
  rewrite H200 in Hinit.
  eexists. rewrite (summarize_200 r u h _ _ Hinit) by done.
  rewrite Hchat. by rewrite <- app_assoc.
Qed.

Lemma summarize_returns_answer_witness :
  ∃ messages,
    summarize (W := Mock.up) Mock.reader Mock.site []
    = (inr (py "A page."),
       [Get Mock.site 10; Chat (model Mock.reader) messages]).
Proof.
  apply (summarize_returns_answer (W := Mock.up) Mock.reader Mock.site []
           {| r_status_code := 200; r_content := [] |} Mock.page (py "T")
           {| message_content := py "A page." |}).
  - by constructor.
  - reflexivity.
  - reflexivity.
Defined.

Lemma summarize_history `{W : Collaborators} r u h :
  ∃ page s,
    Website__init__ u 10 h = (inr page, h ++ [Get u 10])
    ∧ summarize r u h
      = (inr s,
         h ++ Get u 10
              :: (if decide (status_code page = Some 200%Z)
                  then [Chat (model r) (messages_for r page)] else [])).
Proof.
  destruct (init_returns h u 10) as [page Hinit].
  exists page. destruct (decide (status_code page = Some 200%Z)) as [Hst|Hst].
  - eexists. split; [done|].
    rewrite (summarize_200 r u h page _ Hinit Hst). by rewrite <- app_assoc.
  - eexists. split; [done|].
    by rewrite (summarize_not_200 r u h page _ Hinit Hst).
Qed.

(** ** More on [batch_summarize] *)

Section BatchMore.

Context `{W : Collaborators}.

(** The value of a URL is the result of the call made for its last
    occurrence. *)
Lemma batch_last r pre u post h :
  u ∉ post →
  ∃ m1 h1 s h2 m h3,
    batch_summarize r pre h = (inr m1, h1)
    ∧ summarize r u h1 = (inr s, h2)
    ∧ batch_summarize r (pre ++ u :: post) h = (inr m, h3)
    ∧ m !! u = Some s.
Proof.
  intros Hu. unfold batch_summarize.
  destruct (batch_loop_events r pre ∅ h) as (m1 & a1 & Hm1 & _).
  destruct (summarize_events r u (h ++ a1)) as (s & a2 & Hs & _).
  destruct (batch_loop_events r post (<[u := s]> m1) ((h ++ a1) ++ a2))
    as (m & a3 & Hm & _).
  exists m1, (h ++ a1), s, ((h ++ a1) ++ a2), m, (((h ++ a1) ++ a2) ++ a3).
  split; [done|]. split; [done|].
  rewrite (batch_loop_app _ _ _ _ _ _ _ Hm1),
    (batch_loop_cons _ _ _ _ _ _ _ Hs).
  split; [done|].
  rewrite (batch_loop_lookup_notin _ _ _ _ _ _ _ Hu Hm).
  apply lookup_insert_eq.
Qed.

(** Under deterministic collaborators, every entry of the mapping. *)
Lemma batch_lookup_deterministic r urls h m h' u :
  deterministic →
  batch_summarize r urls h = (inr m, h') →
  m !! u = if decide (u ∈ urls)
           then match (summarize r u []).1 with
                | inr s => Some s
                | inl _ => None
                end
           else None.
Proof.
  intros Hdet Hm. destruct (decide (u ∈ urls)) as [Hin|Hnin].
  - apply list_elem_of_split_r in Hin as (pre & post & -> & Hpost).
    destruct (batch_last r pre u post h Hpost)
      as (m1 & h1 & s & h2 & m' & h3 & _ & Hs & Hm' & Hlk).
    rewrite Hm in Hm'. injection Hm' as <- <-.
    rewrite (summarize_deterministic r u [] h1 Hdet), Hs. done.
  - rewrite (batch_loop_lookup_notin _ _ _ _ _ _ _ Hnin Hm).
    apply lookup_empty.
Qed.

Lemma size_list_to_set_le (l : list str) :
  (size (list_to_set l : gset str) ≤ length l)%nat.
Proof.
  induction l as [|x l IH]; [done|].
  rewrite list_to_set_cons. simpl.
  destruct (decide (x ∈ l)) as [Hin|Hnin].
  - assert ({[x]} ∪ list_to_set l = (list_to_set l : gset str)) as ->; [|lia].
    apply subseteq_union_1_L, singleton_subseteq_l.
    by apply elem_of_list_to_set.
  - rewrite size_union, size_singleton; [lia|].
    apply disjoint_singleton_l. by rewrite elem_of_list_to_set.
Qed.

End BatchMore.

(** X14: under deterministic collaborators the mapping [batch_summarize]
    returns has, for every URL of the list, the result of a direct call
    of [summarize] on it, and has no other key. *)
Theorem batch_summarize_each `{W : Collaborators} r urls h :
  deterministic →
  ∃ m h',
    batch_summarize r urls h = (inr m, h')
    ∧ ∀ u, (u ∈ urls →
            ∀ h0, ∃ s, (summarize r u h0).1 = inr s ∧ m !! u = Some s)
           ∧ (u ∉ urls → m !! u = None).
Proof.
  intros Hdet.
  destruct (batch_loop_events r urls ∅ h) as (m & added & Hm & _).
  exists m, (h ++ added). split; [exact Hm|].
  intros u. pose proof (batch_lookup_deterministic r urls h m _ u Hdet Hm)
    as Hlk.
  split.
  - intros Hin h0. rewrite decide_True in Hlk by done.
    destruct (summarize_returns r u h0) as (s & h1 & Hs).
    exists s. rewrite Hs. split; [done|].
    rewrite Hlk, (summarize_deterministic r u [] h0 Hdet), Hs. done.
  - intros Hnin. by rewrite decide_False in Hlk.
Qed.

Lemma batch_summarize_each_witness :
  ∃ m,
    (batch_summarize (W := Mock.up) Mock.reader [py "a"; py "b"] []).1 = inr m
    ∧ m !! py "b" = Some (py "A page.")
    ∧ m !! py "c" = None.
Proof.
  destruct (batch_summarize_each (W := Mock.up) Mock.reader [py "a"; py "b"] []
              (conj (λ _ _ _ _, eq_refl) (λ _ _ _ _, eq_refl)))
    as (m & h' & Hm & Hall).
  exists m. rewrite Hm. split; [reflexivity|]. split.
  - destruct (Hall (py "b")) as [Hin _].
    destruct (Hin ltac:(compute_done) []) as (s & Hs & Hlk).
    rewrite Hlk. f_equal. vm_compute in Hs. by inversion Hs.
  - destruct (Hall (py "c")) as [_ Hnin]. apply Hnin. compute_done.
Defined.

(** X15: the mapping has at most as many keys as the list has URLs, and
    exactly as many when no URL comes twice. *)
Theorem batch_summarize_size `{W : Collaborators} r urls h :
  ∃ m h',
    batch_summarize r urls h = (inr m, h')
    ∧ (size m ≤ length urls)%nat
    ∧ (NoDup urls → size m = length urls).
Proof.
  destruct (batch_loop_events r urls ∅ h) as (m & added & Hm & _).
  exists m, (h ++ added). split; [exact Hm|].
  assert (dom m = list_to_set urls) as Hdom.
  { rewrite (batch_loop_dom _ _ _ _ _ _ Hm), dom_empty_L.
    apply (right_id_L ∅ (∪)). }
  rewrite <- size_dom, Hdom. split.
  - apply size_list_to_set_le.
  - apply size_list_to_set.
Qed.

Lemma batch_summarize_size_witness :
  ∃ m,
    (batch_summarize (W := Mock.down) Mock.reader [py "a"; py "b"] []).1
    = inr m
    ∧ size m = 2%nat.
Proof.
  destruct (batch_summarize_size (W := Mock.down) Mock.reader
              [py "a"; py "b"] []) as (m & h' & Hm & _ & Hsize).
  exists m. rewrite Hm. split; [reflexivity|].
  apply Hsize. compute_done.
Defined.

(** X16: under deterministic collaborators the mapping for a list
    [pre ++ post] is the mapping for [post] completed by the mapping for
    [pre]. *)
Theorem batch_summarize_app `{W : Collaborators} r pre post h h1 h2 :
  deterministic →
  ∃ m m1 m2 h' h1' h2',
    batch_summarize r (pre ++ post) h = (inr m, h')
    ∧ batch_summarize r pre h1 = (inr m1, h1')
    ∧ batch_summarize r post h2 = (inr m2, h2')
    ∧ m = m2 ∪ m1.
Proof.
  intros Hdet.
  destruct (batch_loop_events r (pre ++ post) ∅ h) as (m & a & Hm & _).
  destruct (batch_loop_events r pre ∅ h1) as (m1 & a1 & Hm1 & _).
  destruct (batch_loop_events r post ∅ h2) as (m2 & a2 & Hm2 & _).
  exists m, m1, m2, (h ++ a), (h1 ++ a1), (h2 ++ a2).
  split; [exact Hm|]. split; [exact Hm1|]. split; [exact Hm2|].
  apply map_eq. intros u. rewrite lookup_union.
  rewrite (batch_lookup_deterministic r _ _ _ _ u Hdet Hm),
    (batch_lookup_deterministic r _ _ _ _ u Hdet Hm1),
    (batch_lookup_deterministic r _ _ _ _ u Hdet Hm2).
  destruct (summarize_returns r u []) as (s & h0 & Hs). rewrite Hs. simpl.
  destruct (decide (u ∈ pre)) as [Hpre|Hpre];
    destruct (decide (u ∈ post)) as [Hpost|Hpost].
  - rewrite decide_True by (apply elem_of_app; by left). done.
  - rewrite decide_True by (apply elem_of_app; by left). done.
  - rewrite decide_True by (apply elem_of_app; by right). done.
  - rewrite decide_False; [done|].
    intros Hin. apply elem_of_app in Hin as [?|?]; done.
Qed.

Lemma batch_summarize_app_witness :
  ∃ m m1 m2 h' h1' h2',
    batch_summarize (W := Mock.up) Mock.reader ([py "a"] ++ [py "b"]) []
    = (inr m, h')
    ∧ batch_summarize (W := Mock.up) Mock.reader [py "a"] [] = (inr m1, h1')
    ∧ batch_summarize (W := Mock.up) Mock.reader [py "b"] [] = (inr m2, h2')
    ∧ m = m2 ∪ m1.
Proof.
  apply (batch_summarize_app (W := Mock.up) Mock.reader [py "a"] [py "b"]
           [] [] []).
  split; reflexivity.
Defined.

(** X13: whatever the collaborators do, [summarize] makes one GET, with
    a timeout of 10, and then at most one call of the chat client: one
    when the page has status 200, none otherwise. *)
Theorem summarize_calls `{W : Collaborators} r u h :
  ∃ page s,
    Website__init__ u 10 h = (inr page, h ++ [Get u 10])
    ∧ summarize r u h
      = (inr s,
         h ++ Get u 10
              :: (if decide (status_code page = Some 200%Z)
                  then [Chat (model r) (messages_for r page)] else [])).
Proof. apply summarize_history. Qed.

(** ** The ends of a cleaned text *)

Lemma strip_fixed_head l c :
  strip l = l → head l = Some c → isspace c = false.
Proof.
  intros Hl Hc. rewrite <- Hl in Hc. unfold strip in Hc.
  apply rstrip_head in Hc. by apply lstrip_head in Hc.
Qed.

Lemma strip_fixed_last l c :
  strip l = l → last l = Some c → isspace c = false.
Proof.
  intros Hl Hc. rewrite <- Hl in Hc. unfold strip in Hc.
  by apply rstrip_last in Hc.
Qed.

Lemma join_last sep (ls : list str) c :
  Forall (λ l, l ≠ []) ls →
  last (join sep ls) = Some c →
  ∃ l, l ∈ ls ∧ last l = Some c.
Proof.
  induction 1 as [|l ls Hl Hls IH]; [done|].
  rewrite join_cons. destruct ls as [|l2 ls].
  - rewrite app_nil_r. intros Hc. exists l. split; [by left|done].
  - rewrite !last_app.
    destruct (last (join sep (l2 :: ls))) as [y|] eqn:Hy.
    + intros [= ->]. destruct (IH eq_refl) as (l' & Hin & Hlast).
      exists l'. split; [by right|done].
    + apply last_None in Hy. rewrite join_cons in Hy.
      inversion Hls as [|? ? Hl2 _]; subst. by destruct l2.
Qed.

Lemma strip_join_fixed (ls : list str) :
  Forall (λ l, (10 < length l)%nat ∧ strip l = l) ls →
  strip (join [nl] ls) = join [nl] ls.
Proof.
  intros Hall. unfold strip. rewrite lstrip_id.
  - apply rstrip_id. intros c Hc.
    apply join_last in Hc as (l & Hin & Hlast).
    + rewrite Forall_forall in Hall. destruct (Hall l Hin) as [_ Hl].
      by apply (strip_fixed_last l).
    + eapply Forall_impl; [exact Hall|].
      intros l [Hlen _] ->. simpl in Hlen. lia.
  - intros c Hc. destruct Hall as [|l ls' [Hlen Hl] _]; [done|].
    rewrite join_cons in Hc. apply (strip_fixed_head l); [done|].
    destruct l; [simpl in Hlen; lia|done].
Qed.

(** X4: cleaning a cleaned text changes nothing, and a cleaned text has
    no white space at either end. *)
Theorem clean_text_idemp (text : str) :
  _clean_text (_clean_text text) = _clean_text text
  ∧ strip (_clean_text text) = _clean_text text.
Proof.
  split; [apply clean_text_fixed|].
  rewrite clean_text_kept. apply strip_join_fixed.
  eapply Forall_impl; [apply kept_lines|].
  by intros l (Hlen & Hl & _).
Qed.

(** ** The console *)

(** The lines of the two messages of the check. *)
Lemma check_not_found_lines `{NB : Notebook} r σ models entries names :
  ollama_list = inr models →
  models !! py "models" = Some entries →
  names_of entries = inr names →
  _check_ollama_availability r σ
  = (inr tt,
     {| calls := calls σ;
        screen :=
          screen σ
          ++ if bool_decide (model r ∈ names) then []
             else [ Printed (warning_mark ++ py "  Model '" ++ model r
                             ++ py "' not found locally.");
                    Printed (py "Available models: "
                             ++ join (py ", ") names);
                    Printed (py "To install the model, run: ollama pull "
                             ++ model r) ] |}).
Proof.
  intros Hlist Hmodels Hnames.
  unfold _check_ollama_availability, try_except, mbind, Py_bind, outcome,
    getitem, print, modify, mret, Py_ret.
  rewrite Hlist, Hmodels, Hnames.
  destruct (decide (model r ∈ names)) as [Hin|Hnin].
  - rewrite bool_decide_false by (intros Hn; by apply Hn).
    rewrite bool_decide_true by done.
    destruct σ. simpl. by rewrite app_nil_r.
  - rewrite bool_decide_true by done. rewrite bool_decide_false by done.
    simpl. by rewrite <- !app_assoc.
Qed.

Lemma check_raises_lines `{NB : Notebook} r σ e :
  (models ← outcome ollama_list;
   entries ← outcome (getitem models (py "models"));
   outcome (names_of entries)) σ = (inl e, σ) →
  _check_ollama_availability r σ
  = (inr tt,
     {| calls := calls σ;
        screen :=
          screen σ
          ++ [ Printed (failure_mark
                        ++ py " Ollama is not running or not accessible.");
               Printed (py "Please ensure Ollama is installed and running.");
               Printed
                 (py "Visit: https://ollama.ai for installation instructions")
             ] |}).
Proof.
  unfold _check_ollama_availability, try_except, mbind, Py_bind, outcome,
    print, modify.
  destruct ollama_list as [e0|models]; [intros [= <-]|].
  { simpl. by rewrite <- !app_assoc. }
  destruct (getitem models (py "models")) as [e0|entries]; [intros [= <-]|].
  { simpl. by rewrite <- !app_assoc. }
  destruct (names_of entries) as [e0|names]; [intros [= <-]|done].
  simpl. by rewrite <- !app_assoc.
Qed.

(** An entry without the key [name] makes the comprehension raise. *)
Lemma names_of_missing entries entry :
  entry ∈ entries → entry !! py "name" = None →
  ∃ e, names_of entries = inl e.
Proof.
  induction entries as [|x xs IH]; intros Hin Hnone.
  - by apply elem_of_nil in Hin.
  - simpl. unfold getitem at 1.
    destruct (x !! py "name") as [name|] eqn:Hx; [|by eexists].
    apply elem_of_cons in Hin as [->|Hin]; [congruence|].
    destruct (IH Hin Hnone) as [e ->]. by eexists.
Qed.

Lemma check_returns `{NB : Notebook} r σ :
  ∃ lines,
    _check_ollama_availability r σ
    = (inr tt, {| calls := calls σ;
                  screen := screen σ ++ (Printed <$> lines) |})
    ∧ (lines = [] ∨ length lines = 3%nat).
Proof.
  destruct ollama_list as [e|models] eqn:Hlist.
  { eexists [_; _; _]. split; [|by right].
    apply (check_raises_lines r σ e).
    unfold mbind, Py_bind, outcome. by rewrite Hlist. }
  destruct (models !! py "models") as [entries|] eqn:Hmodels.
  2:{ eexists [_; _; _]. split; [|by right].
      eapply (check_raises_lines r σ).
      unfold mbind, Py_bind, outcome, getitem. by rewrite Hlist, Hmodels. }
  destruct (names_of entries) as [e|names] eqn:Hnames.
  { eexists [_; _; _]. split; [|by right].
    apply (check_raises_lines r σ e).
    unfold mbind, Py_bind, outcome, getitem.
    by rewrite Hlist, Hmodels, Hnames. }
  rewrite (check_not_found_lines r σ models entries names) by done.
  destruct (bool_decide (model r ∈ names)).
  - exists []. split; [done|by left].
  - eexists [_; _; _]. split; [done|by right].
Qed.

(** X17: when [ollama.list()] raises, or answers with a dictionary in
    which the names of the models, where there are any, are strings, the
    construction of a reader does not raise: it returns the reader with
    the model given and the default prompt, makes no GET and no call of
    the chat client, and prints nothing or three lines. *)
Theorem reader_construction `{NB : Notebook} m σ :
  ∃ lines,
    LocalWebReader__new__ m σ
    = (inr (LocalWebReader__init__ m),
       {| calls := calls σ; screen := screen σ ++ (Printed <$> lines) |})
    ∧ (lines = [] ∨ length lines = 3%nat).
Proof.
  destruct (check_returns (LocalWebReader__init__ m) σ)
    as (lines & Hcheck & Hlines).
  exists lines. split; [|done].
  unfold LocalWebReader__new__.
  by rewrite (bind_inr _ _ _ _ _ Hcheck).
Qed.

(** X18: when the listing can be read, the check prints nothing if the
    model of the reader is among the names, and otherwise three lines:
    the model is not found, the names joined by a comma and a space, and
    the command that installs the model. *)
Theorem check_model_listed `{NB : Notebook} r σ models entries names :
  ollama_list = inr models →
  models !! py "models" = Some entries →
  names_of entries = inr names →
  _check_ollama_availability r σ
  = (inr tt,
     {| calls := calls σ;
        screen :=
          screen σ
          ++ if bool_decide (model r ∈ names) then []
             else [ Printed (warning_mark ++ py "  Model '" ++ model r
                             ++ py "' not found locally.");
                    Printed (py "Available models: "
                             ++ join (py ", ") names);
                    Printed (py "To install the model, run: ollama pull "
                             ++ model r) ] |}).
Proof. apply check_not_found_lines. Qed.

Lemma check_model_listed_witness :
  _check_ollama_availability (NB := Cases.installed) Mock.reader Cases.fresh
  = (inr tt, Cases.fresh)
  ∧ ∃ line1 line3,
      _check_ollama_availability (NB := Cases.other_model) Mock.reader
        Cases.fresh
      = (inr tt,
         {| calls := [];
            screen := [ Printed line1;
                        Printed (py "Available models: mistral, phi3");
                        Printed line3 ] |}).
Proof.
  split.
  - apply (check_model_listed (NB := Cases.installed) Mock.reader Cases.fresh
             (Cases.listing [py "mistral"; py "llama3.2"])
             ((λ name, {[ py "name" := name ]})
                <$> [py "mistral"; py "llama3.2"])
             [py "mistral"; py "llama3.2"]); reflexivity.
  - eexists _, _.
    apply (check_model_listed (NB := Cases.other_model) Mock.reader
             Cases.fresh
             (Cases.listing [py "mistral"; py "phi3"])
             ((λ name, {[ py "name" := name ]}) <$> [py "mistral"; py "phi3"])
             [py "mistral"; py "phi3"]); reflexivity.
Defined.

(** X19: when [ollama.list()] raises, or its answer has no key [models],
    or one of the entries has no key [name], the check prints the three
    lines that say that Ollama is not running, the same in the three
    cases, and returns. *)
Theorem check_listing_unreadable `{NB : Notebook} r σ :
  (∃ e, ollama_list = inl e)
  ∨ (∃ models,
       ollama_list = inr models
       ∧ (models !! py "models" = None
          ∨ ∃ entries entry,
              models !! py "models" = Some entries
              ∧ entry ∈ entries
              ∧ entry !! py "name" = None)) →
  _check_ollama_availability r σ
  = (inr tt,
     {| calls := calls σ;
        screen :=
          screen σ
          ++ [ Printed (failure_mark
                        ++ py " Ollama is not running or not accessible.");
               Printed (py "Please ensure Ollama is installed and running.");
               Printed
                 (py "Visit: https://ollama.ai for installation instructions")
             ] |}).
Proof.
  intros [[e Hlist]|(models & Hlist & [Hmodels|Hentry])].
  - apply (check_raises_lines r σ e).
    unfold mbind, Py_bind, outcome. by rewrite Hlist.
  - eapply (check_raises_lines r σ).
    unfold mbind, Py_bind, outcome, getitem. by rewrite Hlist, Hmodels.
  - destruct Hentry as (entries & entry & Hmodels & Hin & Hnone).
    destruct (names_of_missing entries entry Hin Hnone) as [e Hnames].
    apply (check_raises_lines r σ e).
    unfold mbind, Py_bind, outcome, getitem.
    by rewrite Hlist, Hmodels, Hnames.
Qed.

Lemma check_listing_unreadable_witness :
  ∃ lines,
    _check_ollama_availability (NB := Cases.renamed_key) Mock.reader
      Cases.fresh
    = (inr tt, {| calls := []; screen := Printed <$> lines |})
    ∧ length lines = 3%nat.
Proof.
  eexists [_; _; _]. split; [|reflexivity].
  apply (check_listing_unreadable (NB := Cases.renamed_key) Mock.reader
           Cases.fresh).
  right. exists {[ py "models" := [ {[ py "model" := py "llama3.2" ]} ] ]}.
  split; [reflexivity|]. right.
  exists [ {[ py "model" := py "llama3.2" ]} ],
    ({[ py "model" := py "llama3.2" ]}).
  split; [reflexivity|]. split; [by left|reflexivity].
Defined.

(** X20: [display_summary] never raises.  It prints the line that names
    the URL and a rule of 50 dashes, runs [summarize] once, and shows
    its result once: displayed, or printed when the display raises. *)
Theorem display_summary_shows `{W : Collaborators} `{NB : Notebook} r u σ :
  ∃ s h',
    summarize r u (calls σ) = (inr s, h')
    ∧ display_summary r u σ
      = (inr tt,
         {| calls := h';
            screen :=
              screen σ
              ++ [ Printed (lens_mark ++ py " Analyzing: " ++ u);
                   Printed (replicate 50 45);
                   match display s with
                   | None => Displayed s
                   | Some _ => Printed s
                   end ] |}).
Proof.
  destruct (summarize_returns r u (calls σ)) as (s & h' & Hs).
  exists s, h'. split; [done|].
  unfold display_summary, try_except, in_session, call_display, mbind,
    Py_bind, print, modify.
  simpl. rewrite Hs. simpl.
  destruct (display s); simpl; by rewrite <- !app_assoc.
Qed.

(** X21: when [ollama.list()] raises or lists models whose names are
    strings, [main] does not raise.  Besides the one [ollama.list()] of
    the construction of the reader, which the history does not record,
    the GETs and the calls of the chat client it makes are one GET for
    the example URL and then, when the page has status 200, one call of
    the chat client with the default model; the last thing on the screen
    is the summary. *)
Theorem main_runs `{W : Collaborators} `{NB : Notebook} σ :
  ∃ σ' page s,
    main σ = (inr tt, σ')
    ∧ Website__init__ example_url 10 (calls σ)
      = (inr page, calls σ ++ [Get example_url 10])
    ∧ calls σ'
      = calls σ
        ++ Get example_url 10
           :: (if decide (status_code page = Some 200%Z)
               then [Chat DEFAULT_MODEL
                       (messages_for (LocalWebReader__init__ DEFAULT_MODEL)
                          page)]
               else [])
    ∧ (summarize (LocalWebReader__init__ DEFAULT_MODEL) example_url
         (calls σ)).1 = inr s
    ∧ last (screen σ')
      = Some match display s with
             | None => Displayed s
             | Some _ => Printed s
             end.
Proof.
  set (r := LocalWebReader__init__ DEFAULT_MODEL).
  destruct (summarize_history r example_url (calls σ))
    as (page & s & Hinit & Hs).
  unfold main, LocalWebReader__new__, mbind, Py_bind, print, modify. simpl.
  match goal with
  | |- context [_check_ollama_availability ?r0 ?σ0] =>
      destruct (check_returns r0 σ0) as (lines & Hcheck & _);
      rewrite Hcheck
  end.
  unfold display_summary, try_except, in_session, call_display, mbind,
    Py_bind, print, modify, mret, Py_ret.
  simpl. fold r. rewrite Hs. simpl.
  destruct (display s) eqn:Hd; simpl; eexists _, page, s;
    (split; [reflexivity|]); (split; [exact Hinit|]);
    (split; [reflexivity|]); (split; [reflexivity|]);
    rewrite Hd; cbn [screen]; apply last_snoc.
Qed.

(** X22: the preview of a summary keeps its first 200 characters and is
    never longer than 203.  A summary of at most 200 characters is shown
    as it is; a longer one is cut to 200 characters and three dots, 203
    characters in all, even when the summary has only 201 or 202. *)
Theorem preview_length (summary : str) :
  take 200 (preview summary) = take 200 summary
  ∧ (length (preview summary) ≤ 203)%nat
  ∧ ((length summary ≤ 200)%nat → preview summary = summary)
  ∧ ((200 < length summary)%nat → length (preview summary) = 203%nat).
Proof.
  unfold preview.
  destruct (Nat.ltb_spec 200 (length summary)) as [Hlt|Hle]; cbv iota.
  - assert (length (take 200 summary ++ py "...") = 203%nat) as Hlen.
    { rewrite length_app, length_take.
      change (length (py "...")) with 3%nat. lia. }
    split; [|split; [lia|split; [lia|done]]].
    rewrite take_app_le by (rewrite length_take; lia).
    apply take_take.
  - split; [done|]. split; [lia|]. split; [done|lia].
Qed.

Lemma preview_length_witness :
  preview (py "short") = py "short"
  ∧ length (preview (replicate 201 46)) = 203%nat.
Proof.
  destruct (preview_length (py "short")) as (_ & _ & Hshort & _).
  destruct (preview_length (replicate 201 46)) as (_ & _ & _ & Hlong).
  split; [apply Hshort; vm_compute; lia|apply Hlong; vm_compute; lia].
Defined.
